(** * Config: dot-notation configuration store (sample_python_lib/config.py)

    Shallow embedding of the [Config] class.  The configuration tree is a
    JSON-like value; Python dicts are association lists in insertion order
    (assignment to an existing key keeps its position, a new key is
    appended, [del] removes the entry).  The store is modelled as a tree:
    nested dicts are values, as in the data model of the specification.

    Python exceptions are values of [exn]; operations on the [Config]
    object run in a state-and-exception monad over a [state] that holds the
    configured file name, the tree [_config] and the file system. *)

From Stdlib Require Import String Ascii List Bool ZArith Lia.
Import ListNotations.
Open Scope string_scope.
Open Scope list_scope.
Set Warnings "-register-all".

(** ** Python values *)

Inductive value : Type :=
| VNull
| VBool (b : bool)
| VInt (z : Z)
| VStr (s : string)
| VList (l : list value)
| VDict (d : list (string * value)).

Definition dict := list (string * value).

(** Python exceptions raised by the modelled code and the library calls it
    makes. *)
Inductive exn : Type :=
| ValueError            (* raise ValueError(...) / no file specified *)
| JSONDecodeError       (* json.load on malformed text (a ValueError) *)
| KeyError
| TypeError
| AttributeError
| FileNotFoundError
| FileExistsError
| IsADirectoryError
| NotADirectoryError
| IndexError.

(** [except ValueError] also catches [json.JSONDecodeError]. *)
Definition is_value_error (e : exn) : bool :=
  match e with ValueError | JSONDecodeError => true | _ => false end.

Definition is_oserror (e : exn) : bool :=
  match e with
  | FileNotFoundError | FileExistsError | IsADirectoryError
  | NotADirectoryError => true
  | _ => false
  end.

(** ** A small exception monad *)

Inductive res (A : Type) : Type :=
| Ok (a : A)
| Err (e : exn).
Arguments Ok {A} a.
Arguments Err {A} e.

Definition rbind {A B} (m : res A) (k : A -> res B) : res B :=
  match m with Ok a => k a | Err e => Err e end.

Notation "x <- m ;; k" := (rbind m (fun x => k))
  (at level 61, m at next level, right associativity).

(** ** Dict primitives (first match, as a dict has one entry per key) *)

Fixpoint lookup (k : string) (d : dict) : option value :=
  match d with
  | [] => None
  | (k', v) :: d' => if String.eqb k k' then Some v else lookup k d'
  end.

(** [d[k] = v]: replace in place, or append a new entry. *)
Fixpoint dict_assign (k : string) (v : value) (d : dict) : dict :=
  match d with
  | [] => [(k, v)]
  | (k', v') :: d' =>
      if String.eqb k k' then (k', v) :: d' else (k', v') :: dict_assign k v d'
  end.

(** [del d[k]] on a key that is present. *)
Fixpoint dict_remove (k : string) (d : dict) : dict :=
  match d with
  | [] => []
  | (k', v') :: d' => if String.eqb k k' then d' else (k', v') :: dict_remove k d'
  end.

(** Python [k in s] for strings: substring test. *)
Definition str_contains (k s : string) : bool :=
  match String.index 0 k s with Some _ => true | None => false end.

(** [k in obj] for a string [k]. *)
Definition contains (obj : value) (k : string) : res bool :=
  match obj with
  | VDict d => Ok (match lookup k d with Some _ => true | None => false end)
  | VList l =>
      Ok (existsb (fun x => match x with VStr s => String.eqb s k | _ => false end) l)
  | VStr s => Ok (str_contains k s)
  | VNull | VBool _ | VInt _ => Err TypeError   (* not iterable *)
  end.

(** [obj[k]] for a string [k]. *)
Definition getitem (obj : value) (k : string) : res value :=
  match obj with
  | VDict d => match lookup k d with Some v => Ok v | None => Err KeyError end
  | _ => Err TypeError
  end.

(** [obj[k] = v] for a string [k]. *)
Definition setitem (obj : value) (k : string) (v : value) : res value :=
  match obj with
  | VDict d => Ok (VDict (dict_assign k v d))
  | _ => Err TypeError
  end.

(** [del obj[k]] for a string [k]. *)
Definition delitem (obj : value) (k : string) : res value :=
  match obj with
  | VDict d => match lookup k d with
               | Some _ => Ok (VDict (dict_remove k d))
               | None => Err KeyError
               end
  | _ => Err TypeError
  end.

(** [isinstance(v, dict)] *)
Definition is_dict (v : value) : bool :=
  match v with VDict _ => true | _ => false end.

(** ** [str.split(".")] *)

Fixpoint split_aux (s : string) (cur : list ascii) : list string :=
  match s with
  | EmptyString => [string_of_list_ascii (rev cur)]
  | String c s' =>
      if Ascii.eqb c "."%char then string_of_list_ascii (rev cur) :: split_aux s' []
      else split_aux s' (c :: cur)
  end.

Definition split_dot (key : string) : list string := split_aux key [].

(** ** Key-path walks of [get], [set] and [delete] *)

(** [get]: [for k in keys: value = value[k]] *)
Fixpoint get_path (node : value) (ks : list string) : res value :=
  match ks with
  | [] => Ok node
  | k :: ks' => child <- getitem node k ;; get_path child ks'
  end.

(** [set]: for every segment but the last,
    [if k not in config: config[k] = {}] then [config = config[k]];
    finally [config[keys[-1]] = value].  The child dict is updated in place,
    which in the tree model is the write-back [config[k] = child']. *)
Fixpoint set_path (config : value) (k : string) (rest : list string) (v : value)
  : res value :=
  match rest with
  | [] => setitem config k v
  | k2 :: rest' =>
      present <- contains config k ;;
      config1 <- (if present then Ok config else setitem config k (VDict [])) ;;
      child <- getitem config1 k ;;
      child' <- set_path child k2 rest' v ;;
      setitem config1 k child'
  end.

(** [delete]: [for k in keys[:-1]: config = config[k]], then
    [del config[keys[-1]]]. *)
Fixpoint delete_path (config : value) (k : string) (rest : list string) : res value :=
  match rest with
  | [] => delitem config k
  | k2 :: rest' =>
      child <- getitem config k ;;
      child' <- delete_path child k2 rest' ;;
      setitem config k child'
  end.

(** ** [_merge_dicts(target, source)]

    [for key, value in source.items():
       if key in target and isinstance(target[key], dict) and isinstance(value, dict):
           self._merge_dicts(target[key], value)
       else:
           target[key] = value]

    The recursion is on the incoming value; the nested dict is merged in
    place, i.e. written back at [key]. *)
Fixpoint merge_value (source : value) (target : value) {struct source} : res value :=
  match source with
  | VDict sd =>
      (fix go (sd : dict) (target : value) {struct sd} : res value :=
         match sd with
         | [] => Ok target
         | (key, v) :: rest =>
             present <- contains target key ;;
             cur <- (if present then c <- getitem target key ;; Ok (Some c)
                     else Ok None) ;;
             target' <-
               match cur, v with
               | Some (VDict _ as tk), VDict _ =>
                   tk' <- merge_value v tk ;; setitem target key tk'
               | _, _ => setitem target key v
               end ;;
             go rest target'
         end) sd target
  | _ => Err AttributeError   (* [source.items()] on a non-dict *)
  end.

(** ** Schemas of [validate]

    A schema maps key names to descriptors [{"type": t, "required": b,
    "schema": nested}]; each field may be missing.  Expected types are the
    Python type objects a JSON tree can be tested against. *)

Inductive pytype : Type := TNone | TBool | TInt | TStr | TList | TDict.

(** [isinstance(v, t)]; [bool] is a subclass of [int]. *)
Definition isinstance (v : value) (t : pytype) : bool :=
  match v, t with
  | VNull, TNone => true
  | VBool _, (TBool | TInt) => true
  | VInt _, TInt => true
  | VStr _, TStr => true
  | VList _, TList => true
  | VDict _, TDict => true
  | _, _ => false
  end.

Inductive descriptor : Type :=
| Descriptor (type : option pytype) (required : bool)
             (schema : option (list (string * descriptor))).

Definition schema := list (string * descriptor).

Definition desc_type (d : descriptor) : option pytype :=
  match d with Descriptor t _ _ => t end.
Definition desc_required (d : descriptor) : bool :=
  match d with Descriptor _ r _ => r end.
Definition desc_schema (d : descriptor) : option schema :=
  match d with Descriptor _ _ s => s end.

(** [for key, schema_value in schema.items(): body] *)
Fixpoint for_each (body : string * descriptor -> res unit) (s : schema) : res unit :=
  match s with
  | [] => Ok tt
  | kd :: s' => _ <- body kd ;; for_each body s'
  end.

(** One iteration of the loop of [_validate_schema(config, schema)]:
    [if key not in config:
         if schema_value.get("required", False): raise ValueError(...)
         continue
     config_value = config[key]
     expected_type = schema_value.get("type")
     if expected_type and not isinstance(config_value, expected_type):
         raise ValueError(...)
     if "schema" in schema_value and isinstance(config_value, dict):
         self._validate_schema(config_value, schema_value["schema"])] *)
Fixpoint validate_entry (config : value) (key : string) (sv : descriptor)
  {struct sv} : res unit :=
  match sv with
  | Descriptor ty req sub =>
      present <- contains config key ;;
      if negb present then (if req then Err ValueError else Ok tt)
      else
        config_value <- getitem config key ;;
        _ <- match ty with
             | Some t => if isinstance config_value t then Ok tt else Err ValueError
             | None => Ok tt
             end ;;
        match sub with
        | Some s =>
            if is_dict config_value then
              for_each (fun kd => validate_entry config_value (fst kd) (snd kd)) s
            else Ok tt
        | None => Ok tt
        end
  end.

(** [_validate_schema(config, schema)] *)
Definition validate_schema (config : value) (s : schema) : res unit :=
  for_each (fun kd => validate_entry config (fst kd) (snd kd)) s.

(** ** State and exceptions *)

(** A computation over a state [S] that may raise: on a raise the state
    reached so far is kept, as with Python's in-place mutation. *)
Definition ST (S A : Type) : Type := S -> res A * S.

Definition st_ret {S A} (a : A) : ST S A := fun s => (Ok a, s).
Definition st_raise {S A} (e : exn) : ST S A := fun s => (Err e, s).
Definition st_lift {S A} (r : res A) : ST S A := fun s => (r, s).
Definition st_get {S} : ST S S := fun s => (Ok s, s).
Definition st_bind {S A B} (m : ST S A) (k : A -> ST S B) : ST S B :=
  fun s => match m s with
           | (Ok a, s') => k a s'
           | (Err e, s') => (Err e, s')
           end.
(** [try: m except e: h(e)] *)
Definition st_try {S A} (m : ST S A) (h : exn -> ST S A) : ST S A :=
  fun s => match m s with
           | (Err e, s') => h e s'
           | r => r
           end.

Notation "'let!' x := m 'in' k" := (st_bind m (fun x => k))
  (at level 200, x name, m at level 100, k at level 200).

(** ** The file system: [os.path], [os.mkdir], [os.makedirs], [open] *)

Inductive entry : Type := File (contents : string) | Dir.

Definition filesys := string -> option entry.

Definition fs_update (fs : filesys) (p : string) (e : entry) : filesys :=
  fun q => if String.eqb q p then Some e else fs q.

Definition path_exists (fs : filesys) (p : string) : bool :=
  match fs p with Some _ => true | None => false end.

Definition path_isdir (fs : filesys) (p : string) : bool :=
  match fs p with Some Dir => true | _ => false end.

Definition is_slash (c : ascii) : bool := Ascii.eqb c "/"%char.

(** Reversed characters: those after the last slash, and the rest. *)
Fixpoint span_not_slash (r : list ascii) : list ascii * list ascii :=
  match r with
  | [] => ([], [])
  | c :: r' =>
      if is_slash c then ([], r)
      else let '(t, h) := span_not_slash r' in (c :: t, h)
  end.

Fixpoint drop_slashes (r : list ascii) : list ascii :=
  match r with
  | c :: r' => if is_slash c then drop_slashes r' else r
  | [] => []
  end.

(** [posixpath.split]:
    [i = p.rfind('/') + 1; head, tail = p[:i], p[i:];
     if head and head != '/'*len(head): head = head.rstrip('/')] *)
Definition posix_split (p : string) : string * string :=
  let '(t, h) := span_not_slash (rev (list_ascii_of_string p)) in
  let h' := match h with
            | [] => h
            | _ => if forallb is_slash h then h else drop_slashes h
            end in
  (string_of_list_ascii (rev h'), string_of_list_ascii (rev t)).

Definition dirname (p : string) : string := fst (posix_split p).

(** [os.mkdir(name)]: the parent must be a directory ([""] is the current
    directory). *)
Definition mkdir (name : string) : ST filesys unit :=
  fun fs =>
    if String.eqb name "" then (Err FileNotFoundError, fs)
    else if path_exists fs name then (Err FileExistsError, fs)
    else
      let parent := dirname name in
      if String.eqb parent "" then (Ok tt, fs_update fs name Dir)
      else match fs parent with
           | Some Dir => (Ok tt, fs_update fs name Dir)
           | Some (File _) => (Err NotADirectoryError, fs)
           | None => (Err FileNotFoundError, fs)
           end.

(** [os.makedirs(name, exist_ok)]:
    [head, tail = path.split(name)
     if not tail: head, tail = path.split(head)
     if head and tail and not path.exists(head):
         try: makedirs(head, exist_ok=exist_ok)
         except FileExistsError: pass
         if tail == curdir: return
     try: mkdir(name)
     except OSError:
         if not exist_ok or not path.isdir(name): raise]
    The recursion is on ever shorter heads; [fuel] bounds its depth. *)
Fixpoint makedirs (fuel : nat) (name : string) (exist_ok : bool) : ST filesys unit :=
  let '(head, tail) := posix_split name in
  let '(head, tail) := if String.eqb tail "" then posix_split head else (head, tail) in
  let! fs := st_get in
  let! early :=
    (if negb (String.eqb head "") && negb (String.eqb tail "")
        && negb (path_exists fs head)
     then match fuel with
          | O => st_ret false
          | S f =>
              let! _ := st_try (makedirs f head exist_ok)
                          (fun e => match e with
                                    | FileExistsError => st_ret tt
                                    | _ => st_raise e
                                    end) in
              st_ret (String.eqb tail ".")
          end
     else st_ret false) in
  if early then st_ret tt
  else st_try (mkdir name)
         (fun e => let! fs1 := st_get in
                   if is_oserror e && exist_ok && path_isdir fs1 name
                   then st_ret tt else st_raise e).

Definition os_makedirs (name : string) (exist_ok : bool) : ST filesys unit :=
  makedirs (String.length name) name exist_ok.

(** [open(p, "r").read()] *)
Definition read_file (p : string) : ST filesys string :=
  fun fs => match fs p with
            | Some (File c) => (Ok c, fs)
            | Some Dir => (Err IsADirectoryError, fs)
            | None => (Err FileNotFoundError, fs)
            end.

(** [open(p, "w").write(c)] *)
Definition write_file (p : string) (c : string) : ST filesys unit :=
  fun fs =>
    match fs p with
    | Some Dir => (Err IsADirectoryError, fs)
    | _ =>
        let parent := dirname p in
        if String.eqb parent "" then (Ok tt, fs_update fs p (File c))
        else match fs parent with
             | Some Dir => (Ok tt, fs_update fs p (File c))
             | Some (File _) => (Err NotADirectoryError, fs)
             | None => (Err FileNotFoundError, fs)
             end
    end.

(** ** The [Config] object *)

Record state : Type := mkState {
  config_file : option string;   (* [self.config_file] *)
  _config : value;               (* [self._config] *)
  disk : filesys                 (* the file system *)
}.

Definition M (A : Type) : Type := ST state A.

Definition set_tree (t : value) : M unit :=
  fun st => (Ok tt, mkState (config_file st) t (disk st)).

(** Runs a file-system action on the disk of the state. *)
Definition on_disk {A} (m : ST filesys A) : M A :=
  fun st => let '(r, fs') := m (disk st) in
            (r, mkState (config_file st) (_config st) fs').

(** Python [a or b] on optional strings: [None] and [""] are falsy. *)
Definition truthy (a : option string) : bool :=
  match a with Some s => negb (String.eqb s "") | None => false end.

Definition py_or (a b : option string) : option string :=
  if truthy a then a else b.

Section Config.

(** [json.load] after decoding the file: [None] when the text is not a
    JSON document; [json.dump(..., indent=2, ensure_ascii=False)]. *)
Variable json_loads : string -> option value.
Variable json_dumps : value -> string.

(** [load(config_file=None)] *)
Definition load (config_file_arg : option string) : M unit :=
  let! st := st_get in
  match py_or config_file_arg (config_file st) with
  | Some file_path =>
      if String.eqb file_path "" then st_raise ValueError
      else if negb (path_exists (disk st) file_path) then st_raise FileNotFoundError
      else
        let! text := on_disk (read_file file_path) in
        match json_loads text with
        | Some v => set_tree v
        | None => st_raise JSONDecodeError
        end
  | None => st_raise ValueError
  end.

(** [save(config_file=None)] *)
Definition save (config_file_arg : option string) : M unit :=
  let! st := st_get in
  match py_or config_file_arg (config_file st) with
  | Some file_path =>
      if String.eqb file_path "" then st_raise ValueError
      else
        let! _ := on_disk (os_makedirs (dirname file_path) true) in
        let! st1 := st_get in
        on_disk (write_file file_path (json_dumps (_config st1)))
  | None => st_raise ValueError
  end.

(** [__init__(config_file=None)] *)
Definition init (config_file_arg : option string) (fs : filesys) : res unit * state :=
  let st0 := mkState config_file_arg (VDict []) fs in
  match config_file_arg with
  | Some p => if truthy config_file_arg && path_exists fs p then load None st0
              else (Ok tt, st0)
  | None => (Ok tt, st0)
  end.

End Config.

(** [get(key, default=None)] *)
Definition get (key : string) (default : value) : M value :=
  let! st := st_get in
  st_try (st_lift (get_path (_config st) (split_dot key)))
         (fun e => match e with
                   | KeyError | TypeError => st_ret default
                   | _ => st_raise e
                   end).

(** [set(key, value)] *)
Definition set (key : string) (v : value) : M unit :=
  let! st := st_get in
  match split_dot key with
  | k :: rest => let! t := st_lift (set_path (_config st) k rest v) in set_tree t
  | [] => st_raise IndexError
  end.

(** [has(key)]: [self.get(key) is not None] *)
Definition has (key : string) : M bool :=
  let! v := get key VNull in
  st_ret (match v with VNull => false | _ => true end).

(** [delete(key)] *)
Definition delete (key : string) : M bool :=
  let! st := st_get in
  st_try (match split_dot key with
          | k :: rest =>
              let! t := st_lift (delete_path (_config st) k rest) in
              let! _ := set_tree t in
              st_ret true
          | [] => st_raise IndexError
          end)
         (fun e => match e with
                   | KeyError | TypeError => st_ret false
                   | _ => st_raise e
                   end).

(** [merge(config_dict)] *)
Definition merge (config_dict : dict) : M unit :=
  let! st := st_get in
  let! t := st_lift (merge_value (VDict config_dict) (_config st)) in
  set_tree t.

(** [list_sections()]: [list(self._config.keys())] *)
Definition list_sections : M (list string) :=
  let! st := st_get in
  match _config st with
  | VDict d => st_ret (map fst d)
  | _ => st_raise AttributeError
  end.

(** [validate(schema)] *)
Definition validate (s : schema) : M bool :=
  let! st := st_get in
  st_try (let! _ := st_lift (validate_schema (_config st) s) in st_ret true)
         (fun e => if is_value_error e then st_ret false else st_raise e).

(** [clear()]: [self._config.clear()]; a list has [clear] too, other
    values have no such method. *)
Definition clear : M unit :=
  let! st := st_get in
  match _config st with
  | VDict _ => set_tree (VDict [])
  | VList _ => set_tree (VList [])
  | _ => st_raise AttributeError
  end.

(** [to_dict()]: [self._config.copy()]; a list has [copy] too.  The copy
    is shallow (nested mappings are shared), which values do not
    distinguish. *)
Definition to_dict : M value :=
  let! st := st_get in
  match _config st with
  | VDict _ | VList _ => st_ret (_config st)
  | _ => st_raise AttributeError
  end.

(** [from_dict(config_dict)]: [self._config = config_dict.copy()] *)
Definition from_dict (config_dict : value) : M unit :=
  match config_dict with
  | VDict _ | VList _ => set_tree config_dict
  | _ => st_raise AttributeError
  end.

(** [get_section(section)]: [self.get(section, {})] *)
Definition get_section (section : string) : M value :=
  get section (VDict []).

(** [set_section(section, config_dict)]: [self.set(section, config_dict)] *)
Definition set_section (section : string) (config_dict : value) : M unit :=
  set section config_dict.

(** ** The [config] commands of the command line (cli.py) *)

(** A line written by [click.echo(line)] or [click.echo(line, err=True)]. *)
Inductive echo : Type :=
| Out (line : string)
| ErrOut (line : string).

Module Cli.
Section Commands.

Variable json_loads : string -> option value.
Variable json_dumps : value -> string.
(** [str(value)], as an f-string formats a value. *)
Variable py_str : value -> string.

(** [config = Config(config_file)] followed by the rest of a command: the
    lines it echoes and the file system afterwards; an exception ends the
    command. *)
Definition with_config (config_file : string) (body : M (list echo)) (fs : filesys)
  : res (list echo) * filesys :=
  match init json_loads (Some config_file) fs with
  | (Ok _, st) => let '(r, st') := body st in (r, disk st')
  | (Err e, st) => (Err e, disk st)
  end.

(** [config set-value CONFIG_FILE KEY VALUE] *)
Definition set_value (config_file key value : string) : filesys -> res (list echo) * filesys :=
  with_config config_file
    (let! _ := set key (VStr value) in
     let! _ := save json_dumps None in
     st_ret [Out ("Set " ++ key ++ " = " ++ value ++ " in " ++ config_file)]).


(** [config list-sections CONFIG_FILE]; the [list_sections] called in the
    body is the method of [Config]. *)
Definition list_sections (config_file : string) : filesys -> res (list echo) * filesys :=
  with_config config_file
    (let! sections := list_sections in
     st_ret (match sections with
             | [] => [Out "No sections found"]
             | _ => Out "Configuration sections:" :: map (fun s => Out ("  - " ++ s)) sections
             end)).

End Commands.
End Cli.

(** ** Reading of the specification *)

(** The walk of the specification: follow the segments through mappings;
    [None] when a segment is absent or an intermediate value is not a
    mapping. *)
Fixpoint walk (node : value) (ks : list string) : option value :=
  match ks with
  | [] => Some node
  | k :: ks' =>
      match node with
      | VDict d => match lookup k d with Some c => walk c ks' | None => None end
      | _ => None
      end
  end.

(** Python's [is None]. *)
Definition is_none (v : value) : bool :=
  match v with VNull => true | _ => false end.

(** A key is valid for [set] when every intermediate segment is absent or
    holds a mapping (segments met below a non-mapping are absent). *)
Fixpoint valid_key (node : value) (ks : list string) : Prop :=
  match ks with
  | [] => True
  | [_] => True
  | k :: ks' =>
      match node with
      | VDict d =>
          match lookup k d with
          | None => True
          | Some (VDict _ as c) => valid_key c ks'
          | Some _ => False
          end
      | _ => True
      end
  end.

(** [q] is a prefix of [ks]. *)
Definition is_prefix (q ks : list string) : Prop := exists r, ks = q ++ r.

(** A present value matches a declared type; no declared type matches
    everything. *)
Definition type_matches (t : option pytype) (v : value) : Prop :=
  match t with Some t => isinstance v t = true | None => True end.

(** A mapping satisfies a schema when every required key is present, every
    present key has its declared type, and a present mapping satisfies the
    nested schema of its key. *)
Inductive conforms : dict -> schema -> Prop :=
| Conforms (d : dict) (s : schema) :
    (forall k desc, In (k, desc) s -> entry_conforms d k desc) -> conforms d s
with entry_conforms : dict -> string -> descriptor -> Prop :=
| EntryAbsent (d : dict) (k : string) (desc : descriptor) :
    lookup k d = None -> desc_required desc = false -> entry_conforms d k desc
| EntryPresent (d : dict) (k : string) (desc : descriptor) (v : value) :
    lookup k d = Some v -> type_matches (desc_type desc) v ->
    (forall s sd, desc_schema desc = Some s -> v = VDict sd -> conforms sd s) ->
    entry_conforms d k desc.

(** Induction on descriptors through their nested schemas. *)
Fixpoint descriptor_ind' (P : descriptor -> Prop)
  (H : forall ty req sub,
       match sub with
       | Some s => Forall (fun kd => P (snd kd)) s
       | None => True
       end -> P (Descriptor ty req sub))
  (d : descriptor) : P d :=
  match d with
  | Descriptor ty req sub =>
      H ty req sub
        (match sub as o return match o with
                               | Some s => Forall (fun kd => P (snd kd)) s
                               | None => True
                               end with
         | Some s =>
             (fix go (s : schema) : Forall (fun kd => P (snd kd)) s :=
                match s with
                | [] => Forall_nil _
                | (k, d') :: s' =>
                    @Forall_cons _ (fun kd => P (snd kd)) (k, d') s'
                      (descriptor_ind' P H d') (go s')
                end) s
         | None => I
         end)
  end.

(** Induction on values through nested lists and dicts. *)
Fixpoint value_ind' (P : value -> Prop)
  (Hnull : P VNull) (Hbool : forall b, P (VBool b)) (Hint : forall z, P (VInt z))
  (Hstr : forall s, P (VStr s))
  (Hlist : forall l, Forall P l -> P (VList l))
  (Hdict : forall d, Forall (fun kv => P (snd kv)) d -> P (VDict d))
  (v : value) : P v :=
  let rec := value_ind' P Hnull Hbool Hint Hstr Hlist Hdict in
  match v with
  | VNull => Hnull
  | VBool b => Hbool b
  | VInt z => Hint z
  | VStr s => Hstr s
  | VList l =>
      Hlist l ((fix go (l : list value) : Forall P l :=
                  match l with
                  | [] => Forall_nil _
                  | x :: l' => @Forall_cons _ P x l' (rec x) (go l')
                  end) l)
  | VDict d =>
      Hdict d ((fix go (d : dict) : Forall (fun kv => P (snd kv)) d :=
                  match d with
                  | [] => Forall_nil _
                  | (k, x) :: d' =>
                      @Forall_cons _ (fun kv => P (snd kv)) (k, x) d' (rec x) (go d')
                  end) d)
  end.

(** What the specification says of a merge of [s] into [d] giving [d']:
    keys absent from [s] keep their value; a key whose existing and incoming
    values are both mappings holds their recursive merge; any other key of
    [s] holds the incoming value. *)
Definition merged (d s d' : dict) : Prop :=
  (forall k, lookup k s = None -> lookup k d' = lookup k d) /\
  (forall k sv, lookup k s = Some sv ->
     (forall td sd, lookup k d = Some (VDict td) -> sv = VDict sd ->
        exists m, merge_value sv (VDict td) = Ok m /\ lookup k d' = Some m) /\
     ((forall td sd, lookup k d = Some (VDict td) -> sv = VDict sd -> False) ->
        lookup k d' = Some sv)).

(** The keys of a dict, in order, after [d[k] = v]: unchanged when [k] is
    present, [k] appended otherwise. *)
Definition keys_after_assign (k : string) (ks : list string) : list string :=
  if existsb (String.eqb k) ks then ks else ks ++ [k].

(** The keys of [ks] that are not in [old], in order. *)
Definition new_keys (old ks : list string) : list string :=
  filter (fun k => negb (existsb (String.eqb k) old)) ks.

(** Every mapping of [v], at any depth through mappings, has distinct
    keys, as a Python dict has. *)
Fixpoint keys_unique (v : value) : Prop :=
  match v with
  | VDict d =>
      NoDup (map fst d) /\
      (fix all (d : dict) : Prop :=
         match d with
         | [] => True
         | (_, x) :: d' => keys_unique x /\ all d'
         end) d
  | _ => True
  end.

(** ** Fixtures for concrete runs *)
Definition empty_fs : filesys := fun p => if String.eqb p "/" then Some Dir else None.
Definition st_empty : state := mkState None (VDict []) empty_fs.


(** A JSON reader that knows two documents, for concrete runs. *)
Definition sample_loads (text : string) : option value :=
  if String.eqb text "{}" then Some (VDict [])
  else if String.eqb text "5" then Some (VInt 5)
  else None.

Definition dir_fs : filesys :=
  fun p => if String.eqb p "/" then Some Dir
           else if String.eqb p "/srv" then Some Dir
           else if String.eqb p "/srv/app.json" then Some (File "{}")
           else if String.eqb p "/srv/bad.json" then Some (File "{oops")
           else if String.eqb p "/srv/five.json" then Some (File "5")
           else None.

Definition st_dir : state := mkState None (VDict [("a", VInt 1)]) dir_fs.
Definition st_empty_dir : state := mkState None (VDict []) dir_fs.

(** The store after [load] of a file whose document is the number [5]:
    [load] installs whatever top-level JSON value the file holds. *)
Definition st_five : state := snd (load sample_loads (Some "/srv/five.json") st_dir).

(** The example of the specification on a fresh [Config()]. *)
Definition st_example : state :=
  snd (set "database.port" (VInt 5432)
         (snd (set "database.host" (VStr "localhost") (snd (init sample_loads None dir_fs))))).

(** ** Sample runs *)

Example ex_set_get :
  let st1 := snd (set "database.host" (VStr "localhost") st_empty) in
  fst (get "database.host" VNull st1) = Ok (VStr "localhost").
Proof. vm_compute. reflexivity. Qed.

Example ex_split : split_dot "a..b." = ["a"; ""; "b"; ""].
Proof. vm_compute. reflexivity. Qed.

Example ex_posix : posix_split "/tmp/x/cfg.json" = ("/tmp/x", "cfg.json") /\ posix_split "cfg.json" = ("", "cfg.json") /\ posix_split "/a" = ("/", "a").
Proof. vm_compute. repeat split. Qed.

Example ex_makedirs : fst (os_makedirs "" true empty_fs) = Err FileNotFoundError /\
  fst (os_makedirs "/tmp/x" true empty_fs) = Ok tt /\
  path_isdir (snd (os_makedirs "/tmp/x" true empty_fs)) "/tmp" = true.
Proof. vm_compute. repeat split. Qed.

(** ** Basic facts *)

Lemma split_aux_nonempty (s : string) (cur : list ascii) : split_aux s cur <> [].
Proof.
  revert cur; induction s as [|c s IH]; intros cur; simpl; [discriminate|].
  destruct (Ascii.eqb c "."%char); [discriminate | apply IH].
Qed.

Lemma split_dot_nonempty (key : string) : split_dot key <> [].
Proof. apply split_aux_nonempty. Qed.

Lemma lookup_assign_same (k : string) (v : value) (d : dict) :
  lookup k (dict_assign k v d) = Some v.
Proof.
  induction d as [|[k' v'] d IH]; simpl.
  - rewrite String.eqb_refl; reflexivity.
  - destruct (String.eqb k k') eqn:E; simpl; rewrite E; [reflexivity | exact IH].
Qed.

Lemma lookup_assign_other (k k' : string) (v : value) (d : dict) :
  k' <> k -> lookup k' (dict_assign k v d) = lookup k' d.
Proof.
  intros Hne; induction d as [|[k0 v0] d IH]; simpl.
  - destruct (String.eqb_spec k' k); [contradiction | reflexivity].
  - destruct (String.eqb_spec k k0) as [->|Hk]; simpl.
    + destruct (String.eqb_spec k' k0); [contradiction | reflexivity].
    + destruct (String.eqb k' k0); [reflexivity | exact IH].
Qed.

Lemma lookup_remove_other (k k' : string) (d : dict) :
  k' <> k -> lookup k' (dict_remove k d) = lookup k' d.
Proof.
  intros Hne; induction d as [|[k0 v0] d IH]; simpl; [reflexivity|].
  destruct (String.eqb_spec k k0) as [->|Hk]; simpl.
  - destruct (String.eqb_spec k' k0); [contradiction | reflexivity].
  - destruct (String.eqb k' k0); [reflexivity | exact IH].
Qed.

(** The walk of [get] fails only with [KeyError] or [TypeError], and
    exactly when the walk of the specification fails. *)
Lemma get_path_walk (ks : list string) (node : value) :
  match walk node ks with
  | Some v => get_path node ks = Ok v
  | None => get_path node ks = Err KeyError \/ get_path node ks = Err TypeError
  end.
Proof.
  revert node; induction ks as [|k ks IH]; intros node; simpl; [reflexivity|].
  destruct node; simpl; try (right; reflexivity).
  destruct (lookup k d) as [c|]; simpl; [apply IH | left; reflexivity].
Qed.

Lemma get_eq (key : string) (dflt : value) (st : state) :
  get key dflt st =
  (Ok (match walk (_config st) (split_dot key) with Some v => v | None => dflt end), st).
Proof.
  unfold get, st_bind, st_get, st_try, st_lift.
  pose proof (get_path_walk (split_dot key) (_config st)) as H.
  destruct (walk (_config st) (split_dot key)) as [v|].
  - rewrite H; reflexivity.
  - destruct H as [H|H]; rewrite H; reflexivity.
Qed.

Lemma validate_state (s : schema) (st : state) : snd (validate s st) = st.
Proof.
  unfold validate, st_bind, st_get, st_try, st_lift.
  destruct (validate_schema (_config st) s) as [[]|e]; simpl; [reflexivity|].
  destruct (is_value_error e); reflexivity.
Qed.

(** ** C3 *)

(** C3: [get(key, default)] never raises and leaves the store as it is; it
    returns the value reached by walking the segments of [key], or exactly
    [default] when a segment is absent or an intermediate value is not a
    mapping; in particular, for a key whose path does not resolve it returns
    [default]. *)
Theorem get_value_or_default (key : string) (dflt : value) (st : state) :
  get key dflt st =
    (Ok (match walk (_config st) (split_dot key) with Some v => v | None => dflt end), st)
  /\ (walk (_config st) (split_dot key) = None -> get key dflt st = (Ok dflt, st)).
Proof.
  split; [apply get_eq|].
  intros H; rewrite get_eq, H; reflexivity.
Qed.

Lemma get_value_or_default_witness :
  walk (_config st_dir) (split_dot "b.c") = None /\
  get "b.c" (VStr "d") st_dir = (Ok (VStr "d"), st_dir).
Proof.
  split; [vm_compute; reflexivity|].
  apply (proj2 (get_value_or_default "b.c" (VStr "d") st_dir)).
  vm_compute; reflexivity.
Defined.

(** ** C7 *)

(** C7: [has(key)] is true exactly when [get(key)] (default [None])
    returns a value other than [None]; a stored [None] and a path that does
    not resolve both give [False]. *)
Theorem has_iff_get_not_none (key : string) (st : state) :
  (fst (has key st) = Ok true <->
     exists v, fst (get key VNull st) = Ok v /\ v <> VNull)
  /\ (walk (_config st) (split_dot key) = Some VNull -> fst (has key st) = Ok false)
  /\ (walk (_config st) (split_dot key) = None -> fst (has key st) = Ok false).
Proof.
  assert (Hhas : has key st =
    (Ok (negb (is_none (match walk (_config st) (split_dot key) with
                        | Some v => v | None => VNull end))), st)).
  { unfold has, st_bind. rewrite get_eq.
    destruct (walk (_config st) (split_dot key)) as [[]|]; reflexivity. }
  rewrite Hhas; simpl. rewrite get_eq; simpl.
  split; [|split].
  - destruct (walk (_config st) (split_dot key)) as [v|]; simpl.
    + split.
      * intros H; exists v; split; [reflexivity|].
        intros ->; discriminate.
      * intros [v' [Hv Hn]]. injection Hv as <-.
        destruct v; simpl; [contradiction Hn; reflexivity | reflexivity ..].
    + split; [discriminate|].
      intros [v' [Hv Hn]]; injection Hv as <-; contradiction Hn; reflexivity.
  - intros ->; reflexivity.
  - intros ->; reflexivity.
Qed.

Lemma has_iff_get_not_none_witness :
  walk (_config (mkState None (VDict [("x", VNull)]) dir_fs)) (split_dot "x") = Some VNull /\
  fst (has "x" (mkState None (VDict [("x", VNull)]) dir_fs)) = Ok false.
Proof.
  split; [vm_compute; reflexivity|].
  apply (proj1 (proj2 (has_iff_get_not_none "x" (mkState None (VDict [("x", VNull)]) dir_fs)))).
  vm_compute; reflexivity.
Defined.

(** ** C10 *)

(** C10: the observers [get], [has], [list_sections] and [validate] leave
    the store (tree, configured path and disk) exactly as it was, whether
    they return or raise. *)
Theorem observers_keep_state (key : string) (dflt : value) (s : schema) (st : state) :
  snd (get key dflt st) = st /\ snd (has key st) = st /\
  snd (list_sections st) = st /\ snd (validate s st) = st.
Proof.
  split; [rewrite get_eq; reflexivity|].
  split; [unfold has, st_bind; rewrite get_eq; reflexivity|].
  split; [|apply validate_state].
  unfold list_sections, st_bind, st_get; simpl.
  destruct (_config st); reflexivity.
Qed.

(** ** C9 *)

(** C9: when [load] raises (no path, missing file, unreadable or
    malformed content), the store is left exactly as it was: the tree is
    replaced only after the document has been parsed. *)
Theorem load_failure_keeps_state (json_loads : string -> option value)
  (arg : option string) (st : state) (e : exn) :
  fst (load json_loads arg st) = Err e -> snd (load json_loads arg st) = st.
Proof.
  unfold load, st_bind, st_get, on_disk, read_file, set_tree, st_raise.
  destruct (py_or arg (config_file st)) as [p|]; [|reflexivity].
  destruct (String.eqb p ""); [reflexivity|].
  destruct (negb (path_exists (disk st) p)); [reflexivity|].
  destruct st as [cf t fs]; simpl.
  destruct (fs p) as [[c|]|]; simpl; try reflexivity.
  destruct (json_loads c); simpl; [discriminate | reflexivity].
Qed.

Lemma load_failure_keeps_state_witness :
  fst (load sample_loads (Some "/srv/bad.json") st_dir) = Err JSONDecodeError /\
  snd (load sample_loads (Some "/srv/bad.json") st_dir) = st_dir.
Proof.
  split; [vm_compute; reflexivity|].
  apply (load_failure_keeps_state sample_loads (Some "/srv/bad.json") st_dir JSONDecodeError).
  vm_compute; reflexivity.
Defined.

(** ** C6 *)

(** C6 (counterexample): [/srv] exists, as a directory; [load("/srv")]
    raises [IsADirectoryError], which is none of [MissingPath],
    [FileNotFound], [ParseError] or success. *)
Lemma load_directory_counterexample :
  path_exists (disk st_dir) "/srv" = true /\
  load sample_loads (Some "/srv") st_dir = (Err IsADirectoryError, st_dir).
Proof. split; vm_compute; reflexivity. Qed.

(** C6 (amended): [load(path)] raises [ValueError] (MissingPath) when
    neither the supplied nor the configured path is a non-empty string.
    Otherwise, with [p] the supplied path if it is non-empty and the
    configured one if not: it raises [FileNotFoundError] when [p] does not
    exist, [IsADirectoryError] when [p] is a directory, [JSONDecodeError]
    (ParseError) when the file's text is not a JSON document, and otherwise
    replaces the whole tree with the parsed document.  A raise leaves the
    store unchanged. *)
Theorem load_outcomes (json_loads : string -> option value)
  (arg : option string) (st : state) :
  (truthy arg = false -> truthy (config_file st) = false ->
     load json_loads arg st = (Err ValueError, st))
  /\ (forall p : string,
        p <> "" ->
        (arg = Some p \/ (truthy arg = false /\ config_file st = Some p)) ->
        (disk st p = None -> load json_loads arg st = (Err FileNotFoundError, st))
        /\ (disk st p = Some Dir -> load json_loads arg st = (Err IsADirectoryError, st))
        /\ (forall c, disk st p = Some (File c) ->
              (json_loads c = None -> load json_loads arg st = (Err JSONDecodeError, st))
              /\ (forall v, json_loads c = Some v ->
                    load json_loads arg st =
                      (Ok tt, mkState (config_file st) v (disk st))))).
Proof.
  destruct st as [cf t fs]; simpl.
  split.
  - intros Ha Hc. unfold load, st_bind, st_get, py_or; simpl. rewrite Ha.
    destruct cf as [c|]; [|reflexivity].
    simpl in Hc. destruct (String.eqb c ""); [reflexivity | discriminate].
  - intros p Hp Hsel.
    assert (Hor : py_or arg cf = Some p).
    { unfold py_or. destruct Hsel as [->|[Ha ->]].
      - simpl. destruct (String.eqb_spec p ""); [contradiction | reflexivity].
      - rewrite Ha; reflexivity. }
    assert (Hpe : String.eqb p "" = false) by (apply String.eqb_neq; exact Hp).
    unfold load, st_bind, st_get, on_disk, read_file, set_tree, st_raise; simpl.
    rewrite Hor, Hpe. unfold path_exists. cbn.
    split; [intros H; rewrite H; reflexivity|].
    split; [intros H; rewrite H; cbn; rewrite H; reflexivity|].
    intros c Hc; rewrite Hc; cbn; rewrite Hc; cbn.
    split; [intros ->; reflexivity|].
    intros v ->; reflexivity.
Qed.

Lemma load_outcomes_witness :
  load sample_loads (Some "/srv/app.json") st_dir =
    (Ok tt, mkState None (VDict []) dir_fs).
Proof.
  apply (proj2 (proj2 (proj2 (proj2 (load_outcomes sample_loads (Some "/srv/app.json") st_dir)
           "/srv/app.json" ltac:(discriminate) (or_introl eq_refl))) "{}" eq_refl))
    with (v := VDict []).
  reflexivity.
Defined.

(** ** C1 *)

Lemma valid_key_empty (ks : list string) : valid_key (VDict []) ks.
Proof. destruct ks as [|k [|k2 ks]]; simpl; exact I. Qed.

Lemma set_path_get_path (ks : list string) (k : string) (d : dict) (v : value) :
  valid_key (VDict d) (k :: ks) ->
  exists d', set_path (VDict d) k ks v = Ok (VDict d') /\
             get_path (VDict d') (k :: ks) = Ok v.
Proof.
  revert k d; induction ks as [|k2 ks IH]; intros k d Hv.
  - exists (dict_assign k v d); split; [reflexivity|].
    simpl. rewrite lookup_assign_same; reflexivity.
  - change (match lookup k d with
            | None => True
            | Some (VDict _ as c) => valid_key c (k2 :: ks)
            | Some _ => False
            end) in Hv.
    simpl set_path. unfold contains, getitem.
    destruct (lookup k d) as [c|] eqn:Hl; simpl.
    + destruct c as [| | | | |cd]; try contradiction.
      simpl. rewrite Hl; simpl.
      destruct (IH k2 cd Hv) as [cd' [Hs Hg]].
      rewrite Hs; simpl.
      exists (dict_assign k (VDict cd') d); split; [reflexivity|].
      simpl. rewrite lookup_assign_same; exact Hg.
    + rewrite lookup_assign_same; simpl.
      destruct (IH k2 [] (valid_key_empty _)) as [cd' [Hs Hg]].
      rewrite Hs; simpl.
      exists (dict_assign k (VDict cd') (dict_assign k (VDict []) d)); split; [reflexivity|].
      simpl. rewrite lookup_assign_same; exact Hg.
Qed.

(** C1 (counterexample): after [load] of a document whose top level is the
    number [5], the key ["a"] has no intermediate segment, so it is valid,
    yet [set("a", 1)] raises [TypeError]. *)
Lemma set_get_counterexample :
  _config st_five = VInt 5 /\
  valid_key (_config st_five) (split_dot "a") /\
  set "a" (VInt 1) st_five = (Err TypeError, st_five).
Proof. split; [vm_compute; reflexivity|]. split; [exact I | vm_compute; reflexivity]. Qed.

(** C1 (amended): when the store's tree is a mapping and every intermediate
    segment of [key] is absent or holds a mapping, [set(key, v)] returns
    and a following [get(key, default)] returns [v]. *)
Theorem set_then_get (key : string) (v dflt : value) (st : state) (d : dict) :
  _config st = VDict d ->
  valid_key (VDict d) (split_dot key) ->
  exists st', set key v st = (Ok tt, st') /\ get key dflt st' = (Ok v, st').
Proof.
  intros Ht Hv.
  pose proof (split_dot_nonempty key) as Hne.
  unfold set, st_bind, st_get, st_lift.
  destruct (split_dot key) as [|k ks] eqn:Hs; [contradiction Hne; reflexivity|].
  rewrite Ht.
  destruct (set_path_get_path ks k d v Hv) as [d' [Hset Hget]].
  rewrite Hset.
  exists (mkState (config_file st) (VDict d') (disk st)); split; [reflexivity|].
  rewrite get_eq; simpl. rewrite Hs.
  pose proof (get_path_walk (k :: ks) (VDict d')) as Hw.
  destruct (walk (VDict d') (k :: ks)) as [w|].
  - rewrite Hget in Hw. injection Hw as ->. reflexivity.
  - rewrite Hget in Hw. destruct Hw; discriminate.
Qed.

Lemma set_then_get_witness :
  exists st', set "database.host" (VStr "localhost") st_empty = (Ok tt, st') /\
              get "database.host" VNull st' = (Ok (VStr "localhost"), st').
Proof.
  apply (set_then_get "database.host" (VStr "localhost") VNull st_empty []);
    vm_compute; [reflexivity | exact I].
Defined.

(** ** C4 *)

Lemma is_prefix_cons (k : string) (q ks : list string) :
  is_prefix q ks -> is_prefix (k :: q) (k :: ks).
Proof. intros [r ->]. exists r. reflexivity. Qed.

Lemma app_single_nonempty (pre : list string) (lst : string) : pre ++ [lst] <> [].
Proof. destruct pre; discriminate. Qed.

Lemma delete_path_resolved (pre : list string) (lst : string) :
  forall node k rest p,
  k :: rest = pre ++ [lst] ->
  walk node pre = Some (VDict p) -> lookup lst p <> None ->
  exists node',
    delete_path node k rest = Ok node' /\
    walk node' pre = Some (VDict (dict_remove lst p)) /\
    (forall q, ~ is_prefix q (pre ++ [lst]) -> ~ is_prefix (pre ++ [lst]) q ->
               walk node' q = walk node q).
Proof.
  induction pre as [|k0 pre IH]; intros node k rest p Hks Hw Hl.
  - simpl in Hks. injection Hks as -> ->.
    simpl in Hw. injection Hw as ->.
    exists (VDict (dict_remove lst p)). simpl.
    destruct (lookup lst p) as [x|] eqn:Hx; [|contradiction Hl; reflexivity].
    split; [reflexivity|]. split; [reflexivity|].
    intros [|k' q] Hq1 Hq2.
    + contradiction Hq1. exists [lst]; reflexivity.
    + destruct (String.eqb_spec k' lst) as [->|Hne].
      * contradiction Hq2. exists q; reflexivity.
      * simpl. rewrite lookup_remove_other by exact Hne. reflexivity.
  - simpl in Hks. injection Hks as -> Hrest.
    destruct rest as [|k2 rest'].
    { exfalso. apply (app_single_nonempty pre lst). symmetry; exact Hrest. }
    destruct node as [| | | | |d]; try discriminate.
    simpl in Hw. destruct (lookup k0 d) as [child|] eqn:Hc; [|discriminate].
    destruct (IH child k2 rest' p Hrest Hw Hl) as [child' [Hd [Hw' Hq]]].
    exists (VDict (dict_assign k0 child' d)).
    simpl delete_path. unfold getitem. rewrite Hc. simpl. rewrite Hd. simpl.
    split; [reflexivity|]. split.
    + simpl. rewrite lookup_assign_same. exact Hw'.
    + intros [|k' q] Hq1 Hq2.
      * contradiction Hq1. exists (k0 :: pre ++ [lst]); reflexivity.
      * destruct (String.eqb_spec k' k0) as [->|Hne].
        -- simpl. rewrite lookup_assign_same, Hc. apply Hq.
           ++ intros H; apply Hq1. apply is_prefix_cons; exact H.
           ++ intros H; apply Hq2. apply (is_prefix_cons k0 _ _ H).
        -- simpl. rewrite lookup_assign_other by exact Hne. reflexivity.
Qed.

Lemma delete_path_unresolved (pre : list string) (lst : string) :
  forall node k rest,
  k :: rest = pre ++ [lst] ->
  ~ (exists p, walk node pre = Some (VDict p) /\ lookup lst p <> None) ->
  delete_path node k rest = Err KeyError \/ delete_path node k rest = Err TypeError.
Proof.
  induction pre as [|k0 pre IH]; intros node k rest Hks Hn.
  - simpl in Hks. injection Hks as -> ->. simpl. unfold delitem.
    destruct node as [| | | | |d]; try (right; reflexivity).
    destruct (lookup lst d) as [x|] eqn:Hx; [|left; reflexivity].
    exfalso. apply Hn. exists d. split; [reflexivity|]. rewrite Hx; discriminate.
  - simpl in Hks. injection Hks as -> Hrest.
    destruct rest as [|k2 rest'].
    { exfalso. apply (app_single_nonempty pre lst). symmetry; exact Hrest. }
    simpl delete_path.
    destruct node as [| | | | |d]; try (right; reflexivity).
    unfold getitem. destruct (lookup k0 d) as [child|] eqn:Hc; [|left; reflexivity].
    simpl.
    assert (Hn' : ~ (exists p, walk child pre = Some (VDict p) /\ lookup lst p <> None)).
    { intros [p' Hp']; apply Hn; exists p'. simpl. rewrite Hc. exact Hp'. }
    destruct (IH child k2 rest' Hrest Hn') as [H|H]; rewrite H; [left|right]; reflexivity.
Qed.

(** C4: [delete(key)] never raises.  With [key] split into the
    intermediate segments [pre] and the final segment [lst]: when the walk
    through [pre] reaches a mapping [p] that contains [lst], it returns
    [True], the mapping at [pre] becomes [p] without [lst], and every path
    that neither is a prefix of nor extends the deleted key resolves as
    before; the configured path and the disk are untouched.  When the path
    does not fully resolve, it returns [False] and the store is unchanged. *)
Theorem delete_outcomes (key : string) (pre : list string) (lst : string) (st : state) :
  split_dot key = pre ++ [lst] ->
  (exists b st', delete key st = (Ok b, st'))
  /\ (forall p, walk (_config st) pre = Some (VDict p) -> lookup lst p <> None ->
        exists t',
          delete key st = (Ok true, mkState (config_file st) t' (disk st)) /\
          walk t' pre = Some (VDict (dict_remove lst p)) /\
          (forall q, ~ is_prefix q (pre ++ [lst]) -> ~ is_prefix (pre ++ [lst]) q ->
                     walk t' q = walk (_config st) q))
  /\ (~ (exists p, walk (_config st) pre = Some (VDict p) /\ lookup lst p <> None) ->
        delete key st = (Ok false, st)).
Proof.
  intros Hs.
  assert (Hyes : forall p, walk (_config st) pre = Some (VDict p) -> lookup lst p <> None ->
        exists t',
          delete key st = (Ok true, mkState (config_file st) t' (disk st)) /\
          walk t' pre = Some (VDict (dict_remove lst p)) /\
          (forall q, ~ is_prefix q (pre ++ [lst]) -> ~ is_prefix (pre ++ [lst]) q ->
                     walk t' q = walk (_config st) q)).
  { intros p Hw Hl.
    unfold delete, st_bind, st_get, st_try, st_lift, set_tree, st_ret.
    destruct (split_dot key) as [|k rest] eqn:Hk.
    { exfalso; apply (app_single_nonempty pre lst); symmetry; exact Hs. }
    destruct (delete_path_resolved pre lst (_config st) k rest p Hs Hw Hl)
      as [t' [Hd [Hw' Hq]]].
    exists t'. rewrite Hd. split; [reflexivity|]. split; assumption. }
  assert (Hno : ~ (exists p, walk (_config st) pre = Some (VDict p) /\ lookup lst p <> None) ->
        delete key st = (Ok false, st)).
  { intros Hn.
    unfold delete, st_bind, st_get, st_try, st_lift, set_tree, st_ret.
    destruct (split_dot key) as [|k rest] eqn:Hk.
    { exfalso; apply (app_single_nonempty pre lst); symmetry; exact Hs. }
    destruct (delete_path_unresolved pre lst (_config st) k rest Hs Hn) as [H|H];
      rewrite H; reflexivity. }
  split; [|split; assumption].
  destruct (walk (_config st) pre) as [[| | | | |p]|] eqn:Hw;
    try (exists false, st; apply Hno; intros [p [Hp _]]; discriminate).
  destruct (lookup lst p) as [x|] eqn:Hl.
  - destruct (Hyes p eq_refl) as [t' [Ht _]]; [rewrite Hl; discriminate|].
    exists true, (mkState (config_file st) t' (disk st)); exact Ht.
  - exists false, st. apply Hno. intros [p' [Hp Hl']].
    injection Hp as <-. contradiction.
Qed.

Lemma delete_outcomes_witness :
  fst (delete "a.b" (mkState None (VDict [("a", VDict [("b", VInt 1); ("c", VInt 2)])]) dir_fs))
    = Ok true /\
  delete "a.z" st_dir = (Ok false, st_dir).
Proof.
  split.
  - destruct (proj1 (proj2 (delete_outcomes "a.b" ["a"] "b"
       (mkState None (VDict [("a", VDict [("b", VInt 1); ("c", VInt 2)])]) dir_fs)
       eq_refl)) [("b", VInt 1); ("c", VInt 2)] eq_refl ltac:(simpl; discriminate))
      as [t' [Hd _]].
    rewrite Hd. reflexivity.
  - apply (proj2 (proj2 (delete_outcomes "a.z" ["a"] "z" st_dir eq_refl))).
    intros [p [Hp _]]. simpl in Hp. discriminate.
Defined.

(** ** C5 *)

Lemma conforms_nil (d : dict) : conforms d [].
Proof. constructor. intros k desc []. Qed.

Lemma conforms_cons (d : dict) (k : string) (desc : descriptor) (s : schema) :
  conforms d ((k, desc) :: s) <-> entry_conforms d k desc /\ conforms d s.
Proof.
  split.
  - intros H; inversion H as [d' s' Hall]; subst. split.
    + apply Hall; left; reflexivity.
    + constructor. intros k' desc' Hin. apply Hall; right; exact Hin.
  - intros [He Hs]. inversion Hs as [d' s' Hall]; subst.
    constructor. intros k' desc' [Heq|Hin].
    + injection Heq as -> ->. exact He.
    + apply Hall; exact Hin.
Qed.

(** On a mapping, a check either passes or raises [ValueError]. *)
Definition entry_correct (desc : descriptor) : Prop :=
  forall d k,
    (validate_entry (VDict d) k desc = Ok tt \/
     validate_entry (VDict d) k desc = Err ValueError) /\
    (validate_entry (VDict d) k desc = Ok tt <-> entry_conforms d k desc).

Lemma schema_correct (s : schema) :
  Forall (fun kd => entry_correct (snd kd)) s ->
  forall d,
    (validate_schema (VDict d) s = Ok tt \/ validate_schema (VDict d) s = Err ValueError) /\
    (validate_schema (VDict d) s = Ok tt <-> conforms d s).
Proof.
  induction s as [|[k desc] s IH]; intros Hall d.
  - split; [left; reflexivity|]. split; [intros _; apply conforms_nil | reflexivity].
  - inversion Hall as [|x l Hx Hrest]; subst. simpl in Hx.
    destruct (Hx d k) as [Hor Hiff]. destruct (IH Hrest d) as [Hor' Hiff'].
    change (validate_schema (VDict d) ((k, desc) :: s)) with
      (_ <- validate_entry (VDict d) k desc ;; validate_schema (VDict d) s).
    rewrite conforms_cons.
    destruct Hor as [Hok|Hbad].
    + rewrite Hok. simpl. split; [exact Hor'|].
      rewrite <- Hiff'. split; [intros H; split; [apply Hiff; exact Hok | exact H] | tauto].
    + rewrite Hbad. simpl. split; [right; reflexivity|].
      split; [discriminate|]. intros [He _]. apply Hiff in He. congruence.
Qed.

Ltac entry_present Hl Htm :=
  split; [left; reflexivity|];
  split; [intros _; eapply EntryPresent; [exact Hl | exact Htm |];
          intros ? ? Hs Hv; first [discriminate Hs | discriminate Hv]
         | intros _; reflexivity].

Lemma entry_correct_all (desc : descriptor) : entry_correct desc.
Proof.
  induction desc as [ty req sub Hsub] using descriptor_ind'.
  intros d k. simpl. unfold contains.
  destruct (lookup k d) as [v|] eqn:Hl; simpl.
  - simpl.
    assert (Hty : (match ty with
                   | Some t => if isinstance v t then Ok tt else Err ValueError
                   | None => Ok tt
                   end = Ok tt /\ type_matches ty v) \/
                  (match ty with
                   | Some t => if isinstance v t then Ok tt else Err ValueError
                   | None => Ok tt
                   end = Err ValueError /\ ~ type_matches ty v)).
    { destruct ty as [t|]; simpl; [|left; split; [reflexivity | exact I]].
      destruct (isinstance v t); [left; split; reflexivity | right; split; [reflexivity | discriminate]]. }
    destruct Hty as [[Ht Htm]|[Ht Htm]]; rewrite Ht; simpl.
    + destruct sub as [s|]; simpl.
      * destruct v as [| | | | |sd]; simpl; try solve [entry_present Hl Htm].
        change (for_each _ s) with (validate_schema (VDict sd) s).
        destruct (schema_correct s Hsub sd) as [Hor Hiff].
        split; [exact Hor|]. rewrite Hiff. split.
        -- intros Hc. eapply EntryPresent; [exact Hl | exact Htm |].
           intros s0 sd0 Hs0 Hv. injection Hs0 as <-. injection Hv as <-. exact Hc.
        -- intros He. inversion He as [? ? ? Hl' _ | ? ? ? v' Hl' _ Hn]; subst;
             rewrite Hl in Hl'; [discriminate|].
           injection Hl' as <-. apply (Hn s sd eq_refl eq_refl).
      * entry_present Hl Htm.
    + split; [right; reflexivity|].
      split; [discriminate|].
      intros He. inversion He as [? ? ? Hl' _ | ? ? ? v' Hl' Htm' _]; subst;
        rewrite Hl in Hl'; [discriminate|].
      injection Hl' as <-. contradiction.
  - destruct req; simpl.
    + split; [right; reflexivity|]. split; [discriminate|].
      intros He. inversion He as [? ? ? _ Hr | ? ? ? v' Hl' _ _]; subst.
      * discriminate.
      * rewrite Hl in Hl'; discriminate.
    + split; [left; reflexivity|]. split; [intros _; apply EntryAbsent; reflexivity || assumption | reflexivity].
Qed.

Lemma validate_schema_correct (s : schema) (d : dict) :
  (validate_schema (VDict d) s = Ok tt \/ validate_schema (VDict d) s = Err ValueError) /\
  (validate_schema (VDict d) s = Ok tt <-> conforms d s).
Proof.
  apply schema_correct. apply Forall_forall. intros [k desc] _. apply entry_correct_all.
Qed.

(** C5 (counterexample): once the tree is the number [5] (loaded from a
    file), [validate] raises [TypeError] (from [key not in config]), which
    [except ValueError] does not catch. *)
Lemma validate_counterexample :
  validate [("a", Descriptor (Some TInt) true None)] st_five = (Err TypeError, st_five).
Proof. vm_compute. reflexivity. Qed.

(** C5 (amended): when the store's tree is a mapping, [validate(schema)]
    never raises and leaves the store unchanged; it returns [True] exactly
    when every required key is present, every present key has its declared
    type, and every present mapping whose key carries a nested schema
    satisfies it (recursively); otherwise [False]. *)
Theorem validate_on_mapping (s : schema) (st : state) (d : dict) :
  _config st = VDict d ->
  exists b, validate s st = (Ok b, st) /\ (b = true <-> conforms d s).
Proof.
  intros Ht.
  destruct (validate_schema_correct s d) as [Hor Hiff].
  unfold validate, st_bind, st_get, st_try, st_lift, st_ret. rewrite Ht.
  destruct Hor as [Hok|Hbad].
  - rewrite Hok. exists true. split; [reflexivity|]. rewrite <- Hiff. tauto.
  - rewrite Hbad. exists false. split; [reflexivity|].
    rewrite <- Hiff, Hbad. split; discriminate.
Qed.

Lemma validate_on_mapping_witness :
  exists b, validate [("database", Descriptor (Some TDict) true
                         (Some [("port", Descriptor (Some TInt) true None)]))]
              (mkState None (VDict [("database", VDict [("port", VInt 5432)])]) dir_fs)
            = (Ok b, mkState None (VDict [("database", VDict [("port", VInt 5432)])]) dir_fs)
         /\ (b = true <-> conforms [("database", VDict [("port", VInt 5432)])]
                           [("database", Descriptor (Some TDict) true
                              (Some [("port", Descriptor (Some TInt) true None)]))]).
Proof. apply validate_on_mapping. reflexivity. Defined.

(** ** C2 *)

Lemma merge_value_cons (key : string) (v : value) (rest : dict) (target : value) :
  merge_value (VDict ((key, v) :: rest)) target =
  (present <- contains target key ;;
   cur <- (if present then c <- getitem target key ;; Ok (Some c) else Ok None) ;;
   target' <- match cur, v with
              | Some (VDict _ as tk), VDict _ =>
                  tk' <- merge_value v tk ;; setitem target key tk'
              | _, _ => setitem target key v
              end ;;
   merge_value (VDict rest) target').
Proof. reflexivity. Qed.

(** One step of the loop on a dict target. *)
Lemma merge_step_dict (key : string) (v : value) (rest td : dict) :
  merge_value (VDict ((key, v) :: rest)) (VDict td) =
  match lookup key td, v with
  | Some (VDict _ as tk), VDict _ =>
      tk' <- merge_value v tk ;;
      merge_value (VDict rest) (VDict (dict_assign key tk' td))
  | _, _ => merge_value (VDict rest) (VDict (dict_assign key v td))
  end.
Proof.
  rewrite merge_value_cons. unfold contains, getitem.
  destruct (lookup key td) as [c|]; cbn -[merge_value]; [|reflexivity].
  destruct c; try reflexivity.
  destruct v; try reflexivity.
  cbn -[merge_value]. destruct (merge_value (VDict d0) (VDict d)); reflexivity.
Qed.

(** Merging a dict into a dict always succeeds with a dict. *)
Lemma merge_total (v : value) :
  forall sd td, v = VDict sd -> exists td', merge_value v (VDict td) = Ok (VDict td').
Proof.
  induction v as [| | | |l _|d Hd] using value_ind'; intros sd td Hv; try discriminate.
  injection Hv as <-.
  revert td; induction d as [|[key x] d IHd]; intros td.
  - exists td; reflexivity.
  - inversion Hd as [|y l Hx Hrest]; subst. simpl in Hx.
    rewrite merge_step_dict.
    destruct (lookup key td) as [[| | | | |tk]|]; try (apply IHd; exact Hrest).
    destruct x as [| | | | |xd]; try (apply IHd; exact Hrest).
    destruct (Hx xd tk eq_refl) as [tk' Htk]. rewrite Htk. simpl.
    apply IHd; exact Hrest.
Qed.

Lemma lookup_notin (k : string) (s : dict) : ~ In k (map fst s) -> lookup k s = None.
Proof.
  induction s as [|[k' v'] s IH]; simpl; intros Hn; [reflexivity|].
  destruct (String.eqb_spec k k') as [->|]; [contradiction Hn; left; reflexivity|].
  apply IH. intros H; apply Hn; right; exact H.
Qed.

Lemma merge_lookup (s : dict) :
  NoDup (map fst s) ->
  forall d, exists d', merge_value (VDict s) (VDict d) = Ok (VDict d') /\ merged d s d'.
Proof.
  induction s as [|[key v] rest IH]; intros Hnd d.
  - exists d. split; [reflexivity|]. split; [reflexivity|]. intros k sv H; discriminate.
  - simpl in Hnd. inversion Hnd as [|? ? Hnotin Hnd']; subst.
    assert (Hrest_key : lookup key rest = None) by (apply lookup_notin; exact Hnotin).
    (* the dict after the first step, and what the first step stores at [key] *)
    assert (Hstep : exists d1 stored,
              merge_value (VDict ((key, v) :: rest)) (VDict d) = merge_value (VDict rest) (VDict d1) /\
              d1 = dict_assign key stored d /\
              (forall td sd, lookup key d = Some (VDict td) -> v = VDict sd ->
                 merge_value v (VDict td) = Ok stored) /\
              ((forall td sd, lookup key d = Some (VDict td) -> v = VDict sd -> False) ->
                 stored = v)).
    { rewrite merge_step_dict.
      destruct (lookup key d) as [[| | | | |tk]|] eqn:Hl; cbn -[merge_value];
        try (eexists _, _; split; [reflexivity|]; split; [reflexivity|];
             split; [intros td sd Htd; discriminate | intros _; reflexivity]).
      destruct v as [| | | | |vd]; cbn -[merge_value];
        try (eexists _, _; split; [reflexivity|]; split; [reflexivity|];
             split; [intros td sd _ Hv; discriminate | intros _; reflexivity]).
      destruct (merge_total (VDict vd) vd tk eq_refl) as [tk' Htk].
      rewrite Htk. simpl.
      exists (dict_assign key (VDict tk') d), (VDict tk').
      split; [reflexivity|]. split; [reflexivity|]. split.
      - intros td sd Htd Hv. injection Htd as <-. exact Htk.
      - intros Hn. exfalso. apply (Hn tk vd eq_refl eq_refl). }
    destruct Hstep as [d1 [stored [Hrun [Hd1 [Hrec Hrep]]]]].
    destruct (IH Hnd' d1) as [d' [Hm [Habs Hpres]]].
    exists d'. rewrite Hrun. split; [exact Hm|]. split.
    + intros k Hk. simpl in Hk.
      destruct (String.eqb_spec k key) as [Heq|Hne]; [discriminate Hk|].
      rewrite (Habs k Hk), Hd1. apply lookup_assign_other; exact Hne.
    + intros k sv Hk. simpl in Hk.
      destruct (String.eqb_spec k key) as [Heq|Hne].
      * subst k. injection Hk as <-.
        assert (Hd' : lookup key d' = Some stored).
        { rewrite (Habs key Hrest_key), Hd1. apply lookup_assign_same. }
        split.
        -- intros td sd Htd Hv. exists stored. split; [apply (Hrec td sd Htd Hv) | exact Hd'].
        -- intros Hn. rewrite Hd', (Hrep Hn). reflexivity.
      * assert (Hk1 : lookup k d1 = lookup k d)
          by (rewrite Hd1; apply lookup_assign_other; exact Hne).
        destruct (Hpres k sv Hk) as [H1 H2].
        split.
        -- intros td sd Htd Hv. apply (H1 td sd); [rewrite Hk1; exact Htd | exact Hv].
        -- intros Hn. apply H2. intros td sd Htd Hv. rewrite Hk1 in Htd. exact (Hn td sd Htd Hv).
Qed.

(** C2 (counterexample): once the tree is the number [5] (loaded from a
    file), [merge({"a": 1})] raises [TypeError] instead of storing [a]. *)
Lemma merge_counterexample :
  merge [("a", VInt 1)] st_five = (Err TypeError, st_five).
Proof. vm_compute. reflexivity. Qed.

(** C2 (amended): when the store's tree is a mapping, [merge(tree)]
    returns.  Each key of the incoming tree whose existing and incoming
    values are both mappings holds their recursive merge; every other key of
    the incoming tree holds the incoming value; keys absent from the
    incoming tree keep their value, so no existing key is removed.  When the
    tree is not a mapping (a document [load] installed may be a number, a
    string or a list), [merge] raises [TypeError] for a non-empty incoming
    tree and returns for an empty one, leaving the store as it was in both
    cases. *)
Theorem merge_recursive (src : dict) (st : state) :
  (forall d, _config st = VDict d -> NoDup (map fst src) ->
     exists d', merge src st = (Ok tt, mkState (config_file st) (VDict d') (disk st))
             /\ merged d src d'
             /\ (forall k, lookup k d <> None -> lookup k d' <> None)) /\
  (is_dict (_config st) = false ->
     merge src st = (match src with [] => Ok tt | _ :: _ => Err TypeError end, st)).
Proof.
  split.
  - intros d Ht Hnd.
    destruct (merge_lookup src Hnd d) as [d' [Hm Hmerged]].
    exists d'. split.
    { unfold merge, st_bind, st_get, st_lift, set_tree. rewrite Ht, Hm. reflexivity. }
    split; [exact Hmerged|].
    destruct Hmerged as [Habs Hpres].
    intros k Hk.
    destruct (lookup k src) as [sv|] eqn:Hs.
    + destruct (Hpres k sv Hs) as [H1 H2].
      destruct (lookup k d) as [[| | | | |td]|] eqn:Hd; try (contradiction Hk; reflexivity);
        try (rewrite H2; [discriminate | intros td0 sd0 Htd; discriminate]).
      destruct sv as [| | | | |sd];
        try (rewrite H2; [discriminate | intros td0 sd0 _ Hv; discriminate]).
      destruct (H1 td sd eq_refl eq_refl) as [m [_ Hm']]. rewrite Hm'; discriminate.
    + rewrite (Habs k Hs). exact Hk.
  - intros Hd. destruct st as [cf t fs]; simpl in Hd.
    unfold merge, st_bind, st_get, st_lift, set_tree. cbn [_config config_file disk].
    destruct src as [|[key v] rest]; [reflexivity|].
    rewrite merge_value_cons.
    destruct t as [| | | s | l | d]; try discriminate; simpl; try reflexivity.
    + destruct (str_contains key s); reflexivity.
    + destruct (existsb _ l); reflexivity.
Qed.

Lemma merge_recursive_witness :
  (exists d', merge [("db", VDict [("host", VStr "x")])]
                (mkState None (VDict [("db", VDict [("port", VInt 5432)])]) dir_fs)
              = (Ok tt, mkState None (VDict d') dir_fs)
           /\ merged [("db", VDict [("port", VInt 5432)])] [("db", VDict [("host", VStr "x")])] d'
           /\ (forall k, lookup k [("db", VDict [("port", VInt 5432)])] <> None -> lookup k d' <> None)) /\
  merge [] st_five = (Ok tt, st_five) /\
  merge [("a", VInt 1)] st_five = (Err TypeError, st_five).
Proof.
  split; [|split].
  - apply (proj1 (merge_recursive [("db", VDict [("host", VStr "x")])]
                    (mkState None (VDict [("db", VDict [("port", VInt 5432)])]) dir_fs))
             [("db", VDict [("port", VInt 5432)])]).
    + reflexivity.
    + repeat constructor. intros [].
  - apply (proj2 (merge_recursive [] st_five)). vm_compute. reflexivity.
  - apply (proj2 (merge_recursive [("a", VInt 1)] st_five)). vm_compute. reflexivity.
Defined.

(** The two examples of the specification (a dict's order is not
    significant in Python: [port] stays first, [host] is appended). *)
Example merge_nested_example :
  merge [("db", VDict [("host", VStr "x")])]
        (mkState None (VDict [("db", VDict [("port", VInt 5432)])]) dir_fs)
  = (Ok tt, mkState None (VDict [("db", VDict [("port", VInt 5432); ("host", VStr "x")])]) dir_fs).
Proof. vm_compute. reflexivity. Qed.

Example merge_leaf_wins_example :
  let st1 := snd (merge [("a", VInt 1)] st_empty) in
  let st2 := snd (merge [("a", VInt 2)] st1) in
  fst (get "a" VNull st2) = Ok (VInt 2).
Proof. vm_compute. reflexivity. Qed.

(** ** C8 *)

(** C8: for a file name without a directory part, [os.path.dirname] is
    [""] and [os.makedirs("", exist_ok=True)] raises [FileNotFoundError]
    ([""] is not a directory), so [save] raises before writing anything and
    no [load] from that path can give the tree back. *)
Theorem save_bare_filename_raises (json_dumps : value -> string) (st : state) :
  path_exists (disk st) "" = false ->
  save json_dumps (Some "config.json") st = (Err FileNotFoundError, st).
Proof.
  intros He. destruct st as [cf t fs]. simpl in He.
  unfold save, st_bind, st_get, on_disk, os_makedirs. cbn.
  unfold st_try, mkdir, st_bind, st_get, st_raise. cbn.
  unfold path_isdir. unfold path_exists in He.
  destruct (fs "") as [e|]; [discriminate|]. reflexivity.
Qed.

Lemma save_bare_filename_raises_witness :
  save (fun _ => "{}") (Some "config.json") st_example = (Err FileNotFoundError, st_example).
Proof.
  apply save_bare_filename_raises. vm_compute. reflexivity.
Defined.

(** With a directory part the same steps do round-trip, for any JSON
    writer and reader that invert each other. *)
Lemma save_load_in_directory (json_loads : string -> option value)
  (json_dumps : value -> string) :
  (forall v, json_loads (json_dumps v) = Some v) ->
  let st1 := snd (save json_dumps (Some "/srv/out.json") st_example) in
  load json_loads (Some "/srv/out.json") st1 =
    (Ok tt, mkState None (VDict [("database", VDict [("host", VStr "localhost");
                                                    ("port", VInt 5432)])])
                   (disk st1)).
Proof.
  intros Hrt. cbv. rewrite Hrt. reflexivity.
Qed.

(** * Further properties of [Config] and of the [config] commands *)

(** ** Helpers *)

Lemma walk_app (node : value) (ks r : list string) :
  walk node (ks ++ r) = match walk node ks with Some m => walk m r | None => None end.
Proof.
  revert node; induction ks as [|k ks IH]; intros node; simpl; [reflexivity|].
  destruct node; try reflexivity.
  destruct (lookup k d); [apply IH | reflexivity].
Qed.

Lemma keys_assign (k : string) (x : value) (d : dict) :
  map fst (dict_assign k x d) = keys_after_assign k (map fst d).
Proof.
  unfold keys_after_assign.
  induction d as [|[k' v'] d IH]; simpl; [reflexivity|].
  destruct (String.eqb k k') eqn:E; simpl; [reflexivity|].
  rewrite IH. destruct (existsb (String.eqb k) (map fst d)); reflexivity.
Qed.

Lemma keys_after_assign_idem (k : string) (ks : list string) :
  keys_after_assign k (keys_after_assign k ks) = keys_after_assign k ks.
Proof.
  unfold keys_after_assign.
  destruct (existsb (String.eqb k) ks) eqn:E; simpl; [rewrite E; reflexivity|].
  rewrite existsb_app. simpl. rewrite String.eqb_refl, orb_true_r. reflexivity.
Qed.

Lemma set_path_nondict (c : value) (k : string) (rest : list string) (v : value) :
  is_dict c = false -> set_path c k rest v = Err TypeError.
Proof.
  intros Hc. destruct rest as [|k2 rest]; destruct c; try discriminate; simpl; try reflexivity.
  - destruct (str_contains k s); reflexivity.
  - destruct (existsb _ l); reflexivity.
Qed.

Lemma set_path_cons_dict (d : dict) (k k2 : string) (rest : list string) (v : value) :
  set_path (VDict d) k (k2 :: rest) v =
  (child' <- set_path (match lookup k d with Some c => c | None => VDict [] end) k2 rest v ;;
   Ok (VDict (dict_assign k child'
                (match lookup k d with Some _ => d | None => dict_assign k (VDict []) d end)))).
Proof.
  simpl set_path at 1. unfold contains, getitem, setitem.
  destruct (lookup k d) as [c|] eqn:Hl; simpl.
  - rewrite Hl. reflexivity.
  - rewrite lookup_assign_same. reflexivity.
Qed.

Lemma set_path_outcome (rest : list string) :
  forall c k v, (exists t, set_path c k rest v = Ok t) \/ set_path c k rest v = Err TypeError.
Proof.
  induction rest as [|k2 rest IH]; intros c k v.
  - destruct c; simpl; try (right; reflexivity). left; eexists; reflexivity.
  - destruct c as [| | | | |d]; try (right; apply set_path_nondict; reflexivity).
    rewrite set_path_cons_dict.
    destruct (IH (match lookup k d with Some c => c | None => VDict [] end) k2 v) as [[t Ht]|Ht];
      rewrite Ht; simpl; [left; eexists; reflexivity | right; reflexivity].
Qed.

(** What a [set_path] that returns has done. *)
Lemma set_path_ok (rest : list string) :
  forall c k v t, set_path c k rest v = Ok t ->
  exists d d', c = VDict d /\ t = VDict d' /\
    map fst d' = keys_after_assign k (map fst d) /\
    walk t (k :: rest) = Some v /\
    (forall q, ~ is_prefix q (k :: rest) -> ~ is_prefix (k :: rest) q -> walk t q = walk c q).
Proof.
  induction rest as [|k2 rest IH]; intros c k v t Hs.
  - destruct c as [| | | | |d]; try discriminate.
    simpl in Hs. injection Hs as <-.
    exists d, (dict_assign k v d). split; [reflexivity|]. split; [reflexivity|].
    split; [apply keys_assign|].
    split; [simpl; rewrite lookup_assign_same; reflexivity|].
    intros [|k' q] H1 H2; [contradiction H1; exists [k]; reflexivity|].
    destruct (String.eqb_spec k' k) as [Heq|Hne].
    + subst k'. contradiction H2. exists q; reflexivity.
    + simpl. rewrite lookup_assign_other by exact Hne. reflexivity.
  - destruct c as [| | | | |d];
      try (rewrite set_path_nondict in Hs by reflexivity; discriminate).
    rewrite set_path_cons_dict in Hs.
    destruct (lookup k d) as [c0|] eqn:Hl.
    + destruct (set_path c0 k2 rest v) as [child'|e] eqn:Hc; [|discriminate].
      simpl in Hs. injection Hs as <-.
      destruct (IH c0 k2 v child' Hc) as [cd [cd' [Hcd [-> [_ [Hw Hq]]]]]].
      exists d, (dict_assign k (VDict cd') d).
      split; [reflexivity|]. split; [reflexivity|].
      split; [apply keys_assign|].
      split; [simpl; rewrite lookup_assign_same; exact Hw|].
      intros [|k' q] H1 H2; [contradiction H1; exists (k :: k2 :: rest); reflexivity|].
      destruct (String.eqb_spec k' k) as [Heq|Hne].
      * subst k'. simpl. rewrite lookup_assign_same, Hl. apply Hq.
        -- intros H; apply H1; apply is_prefix_cons; exact H.
        -- intros H; apply H2; apply (is_prefix_cons k _ _ H).
      * simpl. rewrite lookup_assign_other by exact Hne. reflexivity.
    + destruct (set_path (VDict []) k2 rest v) as [child'|e] eqn:Hc; [|discriminate].
      simpl in Hs. injection Hs as <-.
      destruct (IH (VDict []) k2 v child' Hc) as [cd [cd' [Hcd [-> [_ [Hw Hq]]]]]].
      exists d, (dict_assign k (VDict cd') (dict_assign k (VDict []) d)).
      split; [reflexivity|]. split; [reflexivity|].
      split; [rewrite !keys_assign; apply keys_after_assign_idem|].
      split; [simpl; rewrite lookup_assign_same; exact Hw|].
      intros [|k' q] H1 H2; [contradiction H1; exists (k :: k2 :: rest); reflexivity|].
      destruct (String.eqb_spec k' k) as [Heq|Hne].
      * subst k'. simpl. rewrite lookup_assign_same, Hl.
        rewrite Hq.
        -- destruct q as [|k3 q]; [|reflexivity].
           contradiction H1. exists (k2 :: rest); reflexivity.
        -- intros H; apply H1; apply is_prefix_cons; exact H.
        -- intros H; apply H2; apply (is_prefix_cons k _ _ H).
      * simpl. rewrite !lookup_assign_other by exact Hne. reflexivity.
Qed.

Lemma set_cases (key : string) (v : value) (st : state) :
  (exists t, set key v st = (Ok tt, mkState (config_file st) t (disk st))) \/
  set key v st = (Err TypeError, st).
Proof.
  unfold set, st_bind, st_get, st_lift, set_tree, st_raise.
  destruct (split_dot key) as [|k rest] eqn:Hs; [exfalso; exact (split_dot_nonempty key Hs)|].
  destruct (set_path_outcome rest (_config st) k v) as [[t Ht]|Ht]; rewrite Ht;
    [left; exists t; reflexivity | right; reflexivity].
Qed.

(** What a [set] that returns has done. *)
Lemma set_ok (key : string) (v : value) (st st' : state) :
  set key v st = (Ok tt, st') ->
  exists k rest d d', split_dot key = k :: rest /\ _config st = VDict d /\
    st' = mkState (config_file st) (VDict d') (disk st) /\
    map fst d' = keys_after_assign k (map fst d) /\
    walk (VDict d') (split_dot key) = Some v /\
    (forall q, ~ is_prefix q (split_dot key) -> ~ is_prefix (split_dot key) q ->
               walk (VDict d') q = walk (_config st) q).
Proof.
  unfold set, st_bind, st_get, st_lift, set_tree, st_raise. intros H.
  destruct (split_dot key) as [|k rest] eqn:Hs; [discriminate|].
  destruct (set_path (_config st) k rest v) as [t|e] eqn:Ht; [|discriminate].
  injection H as <-.
  destruct (set_path_ok rest (_config st) k v t Ht) as [d [d' [Hd [-> [Hk [Hw Hq]]]]]].
  exists k, rest, d, d'.
  split; [reflexivity|]. split; [exact Hd|]. split; [reflexivity|].
  split; [exact Hk|]. split; [exact Hw|]. exact Hq.
Qed.

Lemma lookup_remove_same (k : string) (d : dict) :
  NoDup (map fst d) -> lookup k (dict_remove k d) = None.
Proof.
  induction d as [|[k' v'] d IH]; simpl; intros Hnd; [reflexivity|].
  inversion Hnd as [|? ? Hn Hnd']; subst.
  destruct (String.eqb_spec k k') as [Heq|Hne].
  - subst k'. apply lookup_notin; exact Hn.
  - simpl. destruct (String.eqb_spec k k'); [contradiction|]. apply IH; exact Hnd'.
Qed.

Lemma remove_assign_new (k : string) (v : value) (d : dict) :
  lookup k d = None -> dict_remove k (dict_assign k v d) = d.
Proof.
  induction d as [|[k' v'] d IH]; simpl; intros Hl.
  - rewrite String.eqb_refl. reflexivity.
  - destruct (String.eqb k k') eqn:E; [discriminate|]. simpl. rewrite E, (IH Hl). reflexivity.
Qed.

Lemma merge_keys (src : dict) :
  NoDup (map fst src) ->
  forall d d', merge_value (VDict src) (VDict d) = Ok (VDict d') ->
  map fst d' = map fst d ++ new_keys (map fst d) (map fst src).
Proof.
  induction src as [|[key v] rest IH]; intros Hnd d d' Hm.
  - simpl in Hm. injection Hm as <-. simpl. rewrite app_nil_r. reflexivity.
  - simpl in Hnd. inversion Hnd as [|? ? Hnotin Hnd']; subst.
    rewrite merge_step_dict in Hm.
    assert (Hstep : forall x, merge_value (VDict rest) (VDict (dict_assign key x d)) = Ok (VDict d') ->
                    map fst d' = map fst d ++ new_keys (map fst d) (key :: map fst rest)).
    { intros x Hx. rewrite (IH Hnd' _ _ Hx), keys_assign.
      unfold keys_after_assign, new_keys. simpl.
      destruct (existsb (String.eqb key) (map fst d)) eqn:E; simpl; [reflexivity|].
      rewrite <- app_assoc. simpl. f_equal. f_equal.
      apply filter_ext_in. intros a Ha. rewrite existsb_app. simpl.
      destruct (String.eqb_spec a key) as [Heq|Hne]; [subst a; contradiction|].
      destruct (existsb (String.eqb a) (map fst d)); reflexivity. }
    destruct (lookup key d) as [[| | | | |tk]|]; try (apply (Hstep v); exact Hm).
    destruct v as [| | | | |vd]; try (eapply Hstep; exact Hm).
    destruct (merge_value (VDict vd) (VDict tk)) as [tk'|e]; [|discriminate].
    simpl in Hm. apply (Hstep tk'); exact Hm.
Qed.

Lemma write_file_ok (p c : string) (fs fs' : filesys) (u : unit) :
  write_file p c fs = (Ok u, fs') -> fs' p = Some (File c).
Proof.
  unfold write_file. intros H.
  destruct (fs p) as [[c0|]|]; [| discriminate |];
  (destruct (String.eqb (dirname p) "");
   [injection H as _ <-; unfold fs_update; rewrite String.eqb_refl; reflexivity|];
   destruct (fs (dirname p)) as [[c1|]|]; try discriminate;
   injection H as _ <-; unfold fs_update; rewrite String.eqb_refl; reflexivity).
Qed.

(** What a [save] that returns has done. *)
Lemma save_ok (json_dumps : value -> string) (arg : option string) (st st' : state) :
  save json_dumps arg st = (Ok tt, st') ->
  exists p, py_or arg (config_file st) = Some p /\ p <> "" /\
    config_file st' = config_file st /\ _config st' = _config st /\
    disk st' p = Some (File (json_dumps (_config st))).
Proof.
  unfold save, st_bind, st_get, on_disk, st_raise. intros H.
  destruct (py_or arg (config_file st)) as [p|]; [|discriminate].
  destruct (String.eqb_spec p "") as [_|Hp]; [discriminate|].
  destruct (os_makedirs (dirname p) true (disk st)) as [[u|e] fs1]; [|discriminate].
  simpl in H.
  destruct (write_file p (json_dumps (_config st)) fs1) as [r fs2] eqn:Hw.
  injection H as -> <-.
  exists p. split; [reflexivity|]. split; [exact Hp|]. simpl.
  split; [reflexivity|]. split; [reflexivity|].
  apply (write_file_ok p _ fs1 fs2 tt Hw).
Qed.

Lemma load_frame (json_loads : string -> option value) (arg : option string) (st : state) :
  config_file (snd (load json_loads arg st)) = config_file st /\
  disk (snd (load json_loads arg st)) = disk st.
Proof.
  unfold load, st_bind, st_get, on_disk, read_file, set_tree, st_raise.
  destruct (py_or arg (config_file st)) as [p|]; [|split; reflexivity].
  destruct (String.eqb p ""); [split; reflexivity|].
  destruct (negb (path_exists (disk st) p)); [split; reflexivity|].
  destruct (disk st p) as [[c|]|]; simpl; try (split; reflexivity).
  destruct (json_loads c); split; reflexivity.
Qed.

(** [Config(p)] for a non-empty path [p]. *)
Lemma init_file (json_loads : string -> option value) (p : string) (fs : filesys) :
  p <> "" ->
  init json_loads (Some p) fs =
    match fs p with
    | None => (Ok tt, mkState (Some p) (VDict []) fs)
    | Some Dir => (Err IsADirectoryError, mkState (Some p) (VDict []) fs)
    | Some (File c) =>
        match json_loads c with
        | Some v => (Ok tt, mkState (Some p) v fs)
        | None => (Err JSONDecodeError, mkState (Some p) (VDict []) fs)
        end
    end.
Proof.
  intros Hp.
  assert (Hpe : String.eqb p "" = false) by (apply String.eqb_neq; exact Hp).
  unfold init, truthy, path_exists. rewrite Hpe. simpl.
  destruct (fs p) as [[c|]|] eqn:Hf; simpl; [| |reflexivity];
    unfold load, st_bind, st_get, py_or, on_disk, read_file, set_tree, st_raise, truthy;
    simpl; rewrite Hpe; simpl; unfold path_exists; rewrite !Hf; simpl; rewrite ?Hf; simpl; [|reflexivity].
  destruct (json_loads c); reflexivity.
Qed.

Lemma init_frame (json_loads : string -> option value) (p : string) (fs : filesys) :
  config_file (snd (init json_loads (Some p) fs)) = Some p /\
  disk (snd (init json_loads (Some p) fs)) = fs.
Proof.
  unfold init.
  destruct (truthy (Some p) && path_exists fs p); [|split; reflexivity].
  apply (load_frame json_loads None (mkState (Some p) (VDict []) fs)).
Qed.

(** [os.makedirs("", exist_ok=True)] when [""] names no directory. *)
Lemma makedirs_empty (fs : filesys) :
  fs "" = None -> os_makedirs "" true fs = (Err FileNotFoundError, fs).
Proof.
  intros H. unfold os_makedirs. cbn.
  unfold st_try, mkdir, st_bind, st_get, st_raise. cbn.
  unfold path_isdir. rewrite H. reflexivity.
Qed.

(** [save] to a path without a directory part. *)
Lemma save_no_directory (json_dumps : value -> string) (arg : option string) (st : state) (p : string) :
  py_or arg (config_file st) = Some p -> dirname p = "" -> disk st "" = None ->
  exists e, save json_dumps arg st = (Err e, st).
Proof.
  intros Hp Hdn Hfs. destruct st as [cf t fs]. simpl in Hfs, Hp.
  unfold save, st_bind, st_get, on_disk, st_raise. cbn [config_file _config disk]. rewrite Hp.
  destruct (String.eqb p ""); [exists ValueError; reflexivity|].
  rewrite Hdn. cbn [disk]. rewrite (makedirs_empty fs Hfs). exists FileNotFoundError. reflexivity.
Qed.

(** ** [get_section] *)

(** X1: [get_section(section)] never raises and leaves the store as it is;
    it returns the value stored at the section's path, whatever its type,
    and a new empty mapping when the path does not resolve. *)
Theorem get_section_or_empty (section : string) (st : state) :
  get_section section st =
    (Ok (match walk (_config st) (split_dot section) with
         | Some v => v
         | None => VDict []
         end), st).
Proof. unfold get_section. apply get_eq. Qed.

(** ** [set] and [set_section] *)

(** X2: when [set(key, v)] returns, it has changed only the tree: the
    configured path and the disk are as before, [get(key, default)] now
    returns [v], [has(key)] is [v is not None] (so storing [None] makes
    [has] false), and every path that extends [key] reads inside [v]. *)
Theorem set_then_read (key : string) (v dflt : value) (st st' : state) :
  set key v st = (Ok tt, st') ->
  config_file st' = config_file st /\ disk st' = disk st /\
  get key dflt st' = (Ok v, st') /\
  has key st' = (Ok (negb (is_none v)), st') /\
  (forall r, walk (_config st') (split_dot key ++ r) = walk v r).
Proof.
  intros H.
  destruct (set_ok key v st st' H) as [k [rest [d [d' [Hs [Hd [-> [_ [Hw _]]]]]]]]].
  simpl. split; [reflexivity|]. split; [reflexivity|].
  split; [rewrite get_eq; simpl; rewrite Hw; reflexivity|].
  split; [unfold has, st_bind; rewrite get_eq; simpl; rewrite Hw; destruct v; reflexivity|].
  intros r. rewrite walk_app, Hw. reflexivity.
Qed.

Lemma set_then_read_witness :
  set "database.host" (VStr "localhost") st_dir =
    (Ok tt, snd (set "database.host" (VStr "localhost") st_dir)) /\
  get "database.host" VNull (snd (set "database.host" (VStr "localhost") st_dir)) =
    (Ok (VStr "localhost"), snd (set "database.host" (VStr "localhost") st_dir)).
Proof.
  assert (H : set "database.host" (VStr "localhost") st_dir =
                (Ok tt, snd (set "database.host" (VStr "localhost") st_dir)))
    by (vm_compute; reflexivity).
  split; [exact H|].
  exact (proj1 (proj2 (proj2 (set_then_read "database.host" (VStr "localhost") VNull st_dir _ H)))).
Defined.

(** X3: for a tree in which no mapping is shared between two places, a
    [set(key, v)] that returns leaves every path that is neither a prefix
    nor an extension of [key] resolving as before. *)
Theorem set_keeps_other_paths (key : string) (v : value) (st st' : state) :
  set key v st = (Ok tt, st') ->
  forall q, ~ is_prefix q (split_dot key) -> ~ is_prefix (split_dot key) q ->
    walk (_config st') q = walk (_config st) q.
Proof.
  intros H.
  destruct (set_ok key v st st' H) as [k [rest [d [d' [_ [_ [-> [_ [_ Hq]]]]]]]]].
  exact Hq.
Qed.

Lemma set_keeps_other_paths_witness :
  walk (_config (snd (set "b.c" (VInt 2) st_dir))) ["a"] = walk (_config st_dir) ["a"].
Proof.
  apply (set_keeps_other_paths "b.c" (VInt 2) st_dir).
  - vm_compute. reflexivity.
  - intros [r Hr]. discriminate Hr.
  - intros [r Hr]. discriminate Hr.
Defined.

(** X4: [set(key, v)] raises nothing but [TypeError]; when it raises, the
    store is exactly as it was; when it returns, only the tree has changed.
    On a tree that is not a mapping (a document loaded from a file may be a
    number, a string or a list) it always raises [TypeError]. *)
Theorem set_raises_only_type_error (key : string) (v : value) (st : state) :
  ((exists t, set key v st = (Ok tt, mkState (config_file st) t (disk st))) \/
   set key v st = (Err TypeError, st)) /\
  (is_dict (_config st) = false -> set key v st = (Err TypeError, st)).
Proof.
  split; [apply set_cases|].
  intros Hnd.
  destruct (set_cases key v st) as [[t Ht]|Ht]; [|exact Ht].
  destruct (set_ok key v st _ Ht) as [k [rest [d [d' [_ [Hd _]]]]]].
  rewrite Hd in Hnd. discriminate.
Qed.

Lemma set_raises_only_type_error_witness :
  set "a" (VInt 1) st_five = (Err TypeError, st_five).
Proof.
  apply (proj2 (set_raises_only_type_error "a" (VInt 1) st_five)).
  vm_compute. reflexivity.
Defined.

(** X5: a [set(key, v)] that returns keeps the order of the top-level
    sections: [list_sections()] gives the same list when the first segment
    of [key] was already a section, and that list with the segment appended
    otherwise.  It returns only on a mapping tree. *)
Theorem set_section_order (key k : string) (rest : list string) (v : value) (st st' : state) :
  split_dot key = k :: rest -> set key v st = (Ok tt, st') ->
  exists d, _config st = VDict d /\
    list_sections st' = (Ok (keys_after_assign k (map fst d)), st').
Proof.
  intros Hs H.
  destruct (set_ok key v st st' H) as [k0 [rest0 [d [d' [Hs0 [Hd [-> [Hk _]]]]]]]].
  rewrite Hs in Hs0. injection Hs0 as <- <-.
  exists d. split; [exact Hd|].
  unfold list_sections, st_bind, st_get, st_ret. simpl. rewrite Hk. reflexivity.
Qed.

Lemma set_section_order_witness :
  list_sections (snd (set "b.c" (VInt 2) st_dir)) =
    (Ok ["a"; "b"], snd (set "b.c" (VInt 2) st_dir)).
Proof.
  destruct (set_section_order "b.c" "b" ["c"] (VInt 2) st_dir
              (snd (set "b.c" (VInt 2) st_dir)) eq_refl ltac:(vm_compute; reflexivity))
    as [d [Hd Hl]].
  simpl in Hd. injection Hd as <-. exact Hl.
Defined.

(** X6: [set_section(section, d)] replaces the section rather than merging
    into it: once it returns, [get_section(section)] returns [d], and a key
    that is not in [d] is no longer found under the section. *)
Theorem set_section_replaces (section : string) (sd : dict) (st st' : state) :
  set_section section (VDict sd) st = (Ok tt, st') ->
  get_section section st' = (Ok (VDict sd), st') /\
  (forall k, lookup k sd = None -> walk (_config st') (split_dot section ++ [k]) = None).
Proof.
  unfold set_section. intros H.
  destruct (set_ok section (VDict sd) st st' H) as [k0 [rest [d [d' [_ [_ [-> [_ [Hw _]]]]]]]]].
  split.
  - unfold get_section. rewrite get_eq. simpl. rewrite Hw. reflexivity.
  - intros k Hk. simpl. rewrite walk_app, Hw. simpl. rewrite Hk. reflexivity.
Qed.

Lemma set_section_replaces_witness :
  let st1 := mkState None (VDict [("db", VDict [("host", VStr "a"); ("port", VInt 1)])]) dir_fs in
  let st2 := snd (set_section "db" (VDict [("host", VStr "b")]) st1) in
  get_section "db" st2 = (Ok (VDict [("host", VStr "b")]), st2) /\
  walk (_config st2) (split_dot "db" ++ ["port"]) = None.
Proof.
  intros st1 st2.
  destruct (set_section_replaces "db" [("host", VStr "b")] st1 st2 ltac:(vm_compute; reflexivity))
    as [Hg Hk].
  split; [exact Hg | apply Hk; reflexivity].
Defined.

(** ** [delete] *)

(** X7: when [delete(key)] returns [True] (the parent mapping [p] holds
    the last segment, once, as a dict does), the key is gone: a following
    [get(key, default)] returns [default] and [has(key)] is [False]. *)
Theorem delete_then_absent (key : string) (pre : list string) (lst : string) (p : dict)
  (dflt : value) (st : state) :
  split_dot key = pre ++ [lst] -> walk (_config st) pre = Some (VDict p) ->
  NoDup (map fst p) -> lookup lst p <> None ->
  exists st', delete key st = (Ok true, st') /\
    get key dflt st' = (Ok dflt, st') /\ has key st' = (Ok false, st').
Proof.
  intros Hs Hw Hnd Hl.
  assert (Hcons : exists k rest, pre ++ [lst] = k :: rest)
    by (destruct pre as [|a pre]; simpl; eexists _, _; reflexivity).
  destruct Hcons as [k [rest Hkr]].
  assert (Hs' : split_dot key = k :: rest) by (rewrite Hs; exact Hkr).
  destruct (delete_path_resolved pre lst (_config st) k rest p (eq_sym Hkr) Hw Hl)
    as [t' [Hd [Hw' _]]].
  exists (mkState (config_file st) t' (disk st)).
  assert (Hg : walk t' (split_dot key) = None).
  { rewrite Hs, walk_app, Hw'. simpl. rewrite lookup_remove_same by exact Hnd. reflexivity. }
  split; [unfold delete, st_bind, st_get, st_try, st_lift, set_tree, st_ret; rewrite Hs', Hd; reflexivity|].
  split; [rewrite get_eq; simpl; rewrite Hg; reflexivity|].
  unfold has, st_bind. rewrite get_eq. simpl. rewrite Hg. reflexivity.
Qed.

Lemma delete_then_absent_witness :
  exists st', delete "db.host" (mkState None (VDict [("db", VDict [("host", VStr "x"); ("port", VInt 1)])]) dir_fs)
                = (Ok true, st') /\
              get "db.host" (VStr "none") st' = (Ok (VStr "none"), st') /\
              has "db.host" st' = (Ok false, st').
Proof.
  apply (delete_then_absent "db.host" ["db"] "host" [("host", VStr "x"); ("port", VInt 1)]).
  - reflexivity.
  - reflexivity.
  - repeat constructor; simpl; intuition discriminate.
  - simpl. discriminate.
Defined.

(** X8: [set] of a top-level key that is not yet a section, followed by
    [delete] of the same key, returns [True] and gives back exactly the
    store it started from (the same sections in the same order). *)
Theorem set_new_key_then_delete (key k : string) (v : value) (d : dict) (st : state) :
  split_dot key = [k] -> _config st = VDict d -> lookup k d = None ->
  delete key (snd (set key v st)) = (Ok true, st).
Proof.
  intros Hs Hd Hl. destruct st as [cf t fs]. simpl in Hd. subst t.
  unfold set, st_bind, st_get, st_lift, set_tree. simpl. rewrite Hs. simpl.
  unfold delete, st_bind, st_get, st_try, st_lift, set_tree, st_ret. simpl. rewrite Hs. simpl.
  rewrite lookup_assign_same. rewrite remove_assign_new by exact Hl. reflexivity.
Qed.

Lemma set_new_key_then_delete_witness :
  delete "b" (snd (set "b" (VInt 2) st_dir)) = (Ok true, st_dir).
Proof.
  apply (set_new_key_then_delete "b" "b" (VInt 2) [("a", VInt 1)] st_dir); reflexivity.
Defined.

(** ** [clear], [from_dict], [to_dict] *)

(** X9: on a mapping tree, [clear()] returns and empties the store: the
    configured path and the disk are kept, [list_sections()] is empty and
    every [get(key, default)] returns [default]. *)
Theorem clear_empties (st : state) (d : dict) :
  _config st = VDict d ->
  exists st', clear st = (Ok tt, st') /\
    config_file st' = config_file st /\ disk st' = disk st /\
    list_sections st' = (Ok [], st') /\
    (forall key dflt, get key dflt st' = (Ok dflt, st')).
Proof.
  intros Hd. exists (mkState (config_file st) (VDict []) (disk st)).
  unfold clear, st_bind, st_get, set_tree. rewrite Hd.
  split; [reflexivity|]. split; [reflexivity|]. split; [reflexivity|].
  split; [reflexivity|].
  intros key dflt. rewrite get_eq. simpl.
  pose proof (split_dot_nonempty key) as Hne.
  destruct (split_dot key); [contradiction Hne; reflexivity | reflexivity].
Qed.

Lemma clear_empties_witness :
  exists st', clear st_dir = (Ok tt, st') /\
    config_file st' = config_file st_dir /\ disk st' = disk st_dir /\
    list_sections st' = (Ok [], st') /\
    (forall key dflt, get key dflt st' = (Ok dflt, st')).
Proof. apply (clear_empties st_dir [("a", VInt 1)]). reflexivity. Defined.

(** X10: [from_dict(d)] replaces the whole tree by [d] and keeps the
    configured path and the disk; right after it, [to_dict()] returns [d],
    [list_sections()] returns the keys of [d] in order, and [get] reads
    from [d] alone. *)
Theorem from_dict_then_read (d : dict) (st : state) :
  exists st', from_dict (VDict d) st = (Ok tt, st') /\
    config_file st' = config_file st /\ disk st' = disk st /\
    to_dict st' = (Ok (VDict d), st') /\
    list_sections st' = (Ok (map fst d), st') /\
    (forall key dflt, get key dflt st' =
       (Ok (match walk (VDict d) (split_dot key) with Some v => v | None => dflt end), st')).
Proof.
  exists (mkState (config_file st) (VDict d) (disk st)).
  split; [reflexivity|]. split; [reflexivity|]. split; [reflexivity|].
  split; [reflexivity|]. split; [reflexivity|].
  intros key dflt. apply get_eq.
Qed.

(** ** [merge] *)

(** X11: [merge(src)] on a tree that is not a mapping (a document loaded
    from a file may be a number, a string or a list) returns and changes
    nothing when [src] is empty, and otherwise raises [TypeError], leaving
    the store as it was. *)
Theorem merge_into_non_mapping (src : dict) (st : state) :
  is_dict (_config st) = false ->
  merge src st = (match src with [] => Ok tt | _ :: _ => Err TypeError end, st).
Proof.
  intros Hd. destruct st as [cf t fs]; simpl in Hd.
  unfold merge, st_bind, st_get, st_lift, set_tree. cbn [_config config_file disk].
  destruct src as [|[key v] rest]; [reflexivity|].
  rewrite merge_value_cons.
  destruct t as [| | | s | l | d]; try discriminate; simpl; try reflexivity.
  - destruct (str_contains key s); reflexivity.
  - destruct (existsb _ l); reflexivity.
Qed.

Lemma merge_into_non_mapping_witness :
  merge [] st_five = (Ok tt, st_five) /\
  merge [("a", VInt 1)] st_five = (Err TypeError, st_five).
Proof.
  split.
  - apply (merge_into_non_mapping [] st_five). vm_compute. reflexivity.
  - apply (merge_into_non_mapping [("a", VInt 1)] st_five). vm_compute. reflexivity.
Defined.

(** X12: [merge(src)] on a mapping tree keeps the order of the sections:
    [list_sections()] afterwards is the former list followed by the keys of
    [src] that were not sections, in the order of [src]. *)
Theorem merge_section_order (src d : dict) (st : state) :
  _config st = VDict d -> NoDup (map fst src) ->
  exists st', merge src st = (Ok tt, st') /\
    list_sections st' = (Ok (map fst d ++ new_keys (map fst d) (map fst src)), st').
Proof.
  intros Hd Hnd.
  destruct (merge_total (VDict src) src d eq_refl) as [d' Hm].
  exists (mkState (config_file st) (VDict d') (disk st)).
  split; [unfold merge, st_bind, st_get, st_lift, set_tree; rewrite Hd, Hm; reflexivity|].
  unfold list_sections, st_bind, st_get, st_ret. simpl.
  rewrite (merge_keys src Hnd d d' Hm). reflexivity.
Qed.

Lemma merge_section_order_witness :
  exists st', merge [("b", VInt 2); ("a", VInt 3); ("c", VNull)] st_dir = (Ok tt, st') /\
    list_sections st' = (Ok (["a"] ++ new_keys ["a"] ["b"; "a"; "c"]), st').
Proof.
  apply (merge_section_order [("b", VInt 2); ("a", VInt 3); ("c", VNull)] [("a", VInt 1)] st_dir).
  - reflexivity.
  - repeat constructor; simpl; intuition discriminate.
Defined.

(** ** [save] and [load] *)

(** X13: a [save(path)] that returns writes the tree where a following
    [load(path)] reads it back: for a JSON writer and reader that give back
    the tree, that [load] returns and leaves the store as [save] left it,
    with the same tree as before [save]. *)
Theorem save_then_load (json_loads : string -> option value) (json_dumps : value -> string)
  (arg : option string) (st : state) :
  json_loads (json_dumps (_config st)) = Some (_config st) ->
  fst (save json_dumps arg st) = Ok tt ->
  _config (snd (save json_dumps arg st)) = _config st /\
  load json_loads arg (snd (save json_dumps arg st)) = (Ok tt, snd (save json_dumps arg st)).
Proof.
  intros Hrt Hs.
  destruct (save json_dumps arg st) as [r st'] eqn:E. simpl in Hs |- *. subst r.
  destruct (save_ok json_dumps arg st st' E) as [p [Hp [Hne [Hcf [Ht Hf]]]]].
  split; [exact Ht|].
  unfold load, st_bind, st_get, on_disk, read_file, set_tree, st_raise.
  rewrite Hcf, Hp.
  destruct (String.eqb_spec p "") as [E0|_]; [contradiction|].
  unfold path_exists. rewrite Hf. simpl. rewrite Hf. simpl.
  rewrite Ht, Hrt. destruct st' as [cf t fs]. simpl in *. subst t. reflexivity.
Qed.

Lemma save_then_load_witness :
  _config (snd (save (fun _ => "{}") (Some "/srv/out.json") st_empty_dir)) = VDict [] /\
  load sample_loads (Some "/srv/out.json") (snd (save (fun _ => "{}") (Some "/srv/out.json") st_empty_dir))
    = (Ok tt, snd (save (fun _ => "{}") (Some "/srv/out.json") st_empty_dir)).
Proof.
  apply (save_then_load sample_loads (fun _ => "{}") (Some "/srv/out.json") st_empty_dir);
    vm_compute; reflexivity.
Defined.

(** ** The constructor *)

(** X14: [Config(config_file)] never touches the disk.  Without a path, or
    with [""], and with a path that does not exist, it starts from an empty
    mapping.  With an existing path it loads it: a directory raises
    [IsADirectoryError], a file whose text is not a JSON document raises
    [JSONDecodeError], and otherwise the tree is the document. *)
Theorem init_outcomes (json_loads : string -> option value) (arg : option string) (fs : filesys) :
  (truthy arg = false -> init json_loads arg fs = (Ok tt, mkState arg (VDict []) fs)) /\
  (forall p, arg = Some p -> p <> "" ->
     (fs p = None -> init json_loads arg fs = (Ok tt, mkState arg (VDict []) fs)) /\
     (fs p = Some Dir ->
        init json_loads arg fs = (Err IsADirectoryError, mkState arg (VDict []) fs)) /\
     (forall c, fs p = Some (File c) ->
        (json_loads c = None ->
           init json_loads arg fs = (Err JSONDecodeError, mkState arg (VDict []) fs)) /\
        (forall v, json_loads c = Some v -> init json_loads arg fs = (Ok tt, mkState arg v fs)))).
Proof.
  split.
  - intros Ha. unfold init. destruct arg as [p|]; [|reflexivity]. rewrite Ha. reflexivity.
  - intros p -> Hp. rewrite (init_file json_loads p fs Hp).
    split; [intros H; rewrite H; reflexivity|].
    split; [intros H; rewrite H; reflexivity|].
    intros c H. rewrite H. split; [intros Hc; rewrite Hc; reflexivity|].
    intros v Hv. rewrite Hv. reflexivity.
Qed.

Lemma init_outcomes_witness :
  init sample_loads (Some "/srv/bad.json") dir_fs =
    (Err JSONDecodeError, mkState (Some "/srv/bad.json") (VDict []) dir_fs).
Proof.
  apply (proj1 (proj2 (proj2 (proj2 (init_outcomes sample_loads (Some "/srv/bad.json") dir_fs)
           "/srv/bad.json" eq_refl ltac:(discriminate))) "{oops" eq_refl)).
  reflexivity.
Defined.

(** ** The [config] commands *)

(** X15: [config set-value FILE KEY VALUE] with a file name that has no
    directory part (as ["config.json"]) never succeeds and leaves the disk
    as it was: [Config(FILE)] may load the file, [set] may raise, and
    otherwise [save] raises in [os.makedirs("")]; no line is echoed. *)
Theorem cli_set_value_bare_filename (json_loads : string -> option value)
  (json_dumps : value -> string) (path key value : string) (fs : filesys) :
  dirname path = "" -> fs "" = None ->
  exists e, Cli.set_value json_loads json_dumps path key value fs = (Err e, fs).
Proof.
  intros Hdn Hfs.
  destruct (init_frame json_loads path fs) as [Hcf Hdisk].
  unfold Cli.set_value, Cli.with_config.
  destruct (init json_loads (Some path) fs) as [[u|e] st0] eqn:Hi; simpl in Hcf, Hdisk;
    [|exists e; rewrite Hdisk; reflexivity].
  unfold st_bind at 1.
  destruct (set_cases key (VStr value) st0) as [[t Hs]|Hs]; rewrite Hs;
    [|exists TypeError; rewrite Hdisk; reflexivity].
  unfold st_bind.
  destruct (save_no_directory json_dumps None (mkState (config_file st0) t (disk st0)) path)
    as [e He].
  - simpl. rewrite Hcf. reflexivity.
  - exact Hdn.
  - simpl. rewrite Hdisk. exact Hfs.
  - rewrite He. exists e. simpl. rewrite Hdisk. reflexivity.
Qed.

Lemma cli_set_value_bare_filename_witness :
  exists e, Cli.set_value sample_loads (fun _ => "{}") "config.json" "database.host" "localhost" dir_fs
              = (Err e, dir_fs).
Proof.
  apply cli_set_value_bare_filename; reflexivity.
Defined.

(** X16: when [config set-value FILE KEY VALUE] succeeds, it echoes
    exactly [Set KEY = VALUE in FILE], and FILE then holds the JSON text of
    a tree in which KEY resolves to the string VALUE. *)
Theorem cli_set_value_writes (json_loads : string -> option value) (json_dumps : value -> string)
  (path key value : string) (fs : filesys) (out : list echo) :
  fst (Cli.set_value json_loads json_dumps path key value fs) = Ok out ->
  out = [Out ("Set " ++ key ++ " = " ++ value ++ " in " ++ path)] /\
  exists t, snd (Cli.set_value json_loads json_dumps path key value fs) path =
              Some (File (json_dumps t)) /\
            walk t (split_dot key) = Some (VStr value).
Proof.
  destruct (init_frame json_loads path fs) as [Hcf _].
  unfold Cli.set_value, Cli.with_config.
  destruct (init json_loads (Some path) fs) as [[u|e] st0] eqn:Hi; simpl in Hcf;
    [|discriminate].
  unfold st_bind.
  destruct (set key (VStr value) st0) as [[[]|e1] st1] eqn:Hs; [|discriminate].
  destruct (set_ok key (VStr value) st0 st1 Hs) as [k [rest [d [d' [_ [_ [-> [_ [Hw _]]]]]]]]].
  destruct (save json_dumps None (mkState (config_file st0) (VDict d') (disk st0))) as [[[]|e2] st2] eqn:Hsv;
    [|discriminate].
  destruct (save_ok json_dumps None _ st2 Hsv) as [p [Hp [_ [_ [_ Hf]]]]].
  simpl in Hp. rewrite Hcf in Hp. injection Hp as <-.
  simpl. intros Hout. injection Hout as <-. split; [reflexivity|].
  exists (VDict d'). split; [exact Hf | exact Hw].
Qed.

Lemma cli_set_value_writes_witness :
  exists t, snd (Cli.set_value sample_loads (fun _ => "{}") "/srv/out.json" "database.host" "localhost" dir_fs)
              "/srv/out.json" = Some (File "{}") /\
            walk t (split_dot "database.host") = Some (VStr "localhost").
Proof.
  destruct (cli_set_value_writes sample_loads (fun _ => "{}") "/srv/out.json" "database.host" "localhost"
              dir_fs [Out "Set database.host = localhost in /srv/out.json"] ltac:(vm_compute; reflexivity))
    as [_ [t [Hf Hw]]].
  exists t. split; [exact Hf | exact Hw].
Defined.



(** X18: [config list-sections FILE] never changes the disk, whatever
    FILE is.  For the empty name [""] (which [Config] treats as no file) or
    a FILE that does not exist, it echoes [No sections found]; a directory
    raises [IsADirectoryError] and a text that is not a JSON document raises
    [JSONDecodeError]; for a JSON object without keys it echoes
    [No sections found], for a JSON object with keys the header
    [Configuration sections:] and one line [  - KEY] per key, in order, and
    for any other JSON document (a number, a string, a list, ...) it raises
    [AttributeError]. *)
Theorem cli_list_sections_outcomes (json_loads : string -> option value)
  (path : string) (fs : filesys) :
  snd (Cli.list_sections json_loads path fs) = fs /\
  ((path = "" \/ fs path = None) ->
     Cli.list_sections json_loads path fs = (Ok [Out "No sections found"], fs)) /\
  (path <> "" -> fs path = Some Dir ->
     Cli.list_sections json_loads path fs = (Err IsADirectoryError, fs)) /\
  (forall c, path <> "" -> fs path = Some (File c) -> json_loads c = None ->
     Cli.list_sections json_loads path fs = (Err JSONDecodeError, fs)) /\
  (forall c doc, path <> "" -> fs path = Some (File c) -> json_loads c = Some doc ->
     Cli.list_sections json_loads path fs =
       (match doc with
        | VDict [] => Ok [Out "No sections found"]
        | VDict d => Ok (Out "Configuration sections:" :: map (fun s => Out ("  - " ++ s)) (map fst d))
        | _ => Err AttributeError
        end, fs)).
Proof.
  unfold Cli.list_sections, Cli.with_config.
  pose proof (proj2 (init_frame json_loads path fs)) as Hfr.
  split.
  { destruct (init json_loads (Some path) fs) as [[u|e] st]; simpl in Hfr |- *; [|exact Hfr].
    unfold list_sections, st_bind, st_get, st_ret, st_raise.
    destruct (_config st); simpl; exact Hfr. }
  split.
  { intros [-> | H]; [reflexivity|].
    destruct (String.eqb_spec path "") as [-> | Hp]; [reflexivity|].
    rewrite (init_file json_loads path fs Hp), H. reflexivity. }
  split.
  { intros Hp H. rewrite (init_file json_loads path fs Hp), H. reflexivity. }
  split.
  { intros c Hp H Hc. rewrite (init_file json_loads path fs Hp), H, Hc. reflexivity. }
  intros c doc Hp H Hc. rewrite (init_file json_loads path fs Hp), H, Hc.
  destruct doc as [| | | | |[|[k v] d]]; reflexivity.
Qed.

Lemma cli_list_sections_outcomes_witness :
  Cli.list_sections sample_loads "/srv/five.json" dir_fs = (Err AttributeError, dir_fs) /\
  Cli.list_sections sample_loads "" dir_fs = (Ok [Out "No sections found"], dir_fs).
Proof.
  split.
  - rewrite (proj2 (proj2 (proj2 (proj2 (cli_list_sections_outcomes sample_loads "/srv/five.json" dir_fs))))
               "5" (VInt 5) ltac:(discriminate) eq_refl eq_refl).
    reflexivity.
  - exact (proj1 (proj2 (cli_list_sections_outcomes sample_loads "" dir_fs)) (or_introl eq_refl)).
Defined.

(** ** Merging twice *)

Lemma merge_nondict_target (k : string) (x : value) (rest : dict) (t : value) :
  is_dict t = false -> merge_value (VDict ((k, x) :: rest)) t = Err TypeError.
Proof.
  intros H. rewrite merge_value_cons.
  destruct t as [| | | s | l | d]; try discriminate; simpl; try reflexivity.
  - destruct (str_contains k s); reflexivity.
  - destruct (existsb _ l); reflexivity.
Qed.

Lemma assign_lookup_same (k : string) (x : value) (d : dict) :
  lookup k d = Some x -> dict_assign k x d = d.
Proof.
  induction d as [|[k' v'] d IH]; simpl; [discriminate|].
  destruct (String.eqb_spec k k') as [Heq|Hne]; intros H.
  - subst k'. injection H as ->. reflexivity.
  - rewrite (IH H). reflexivity.
Qed.

Lemma assign_absent (k : string) (x : value) (d : dict) :
  lookup k d = None -> dict_assign k x d = d ++ [(k, x)].
Proof.
  induction d as [|[k' v'] d IH]; simpl; [reflexivity|].
  destruct (String.eqb k k'); intros H; [discriminate|].
  rewrite (IH H). reflexivity.
Qed.

Lemma lookup_app (k : string) (d1 d2 : dict) :
  lookup k (d1 ++ d2) = match lookup k d1 with Some v => Some v | None => lookup k d2 end.
Proof.
  induction d1 as [|[k' v'] d1 IH]; simpl; [reflexivity|].
  destruct (String.eqb k k'); [reflexivity | exact IH].
Qed.

(** Merging a dict with distinct keys into a dict that has none of them
    appends its entries. *)
Lemma merge_into_fresh (xd : dict) :
  NoDup (map fst xd) ->
  forall acc, (forall k, In k (map fst xd) -> lookup k acc = None) ->
  merge_value (VDict xd) (VDict acc) = Ok (VDict (acc ++ xd)).
Proof.
  induction xd as [|[k v] xd IH]; intros Hnd acc Hfresh.
  - simpl. rewrite app_nil_r. reflexivity.
  - simpl in Hnd. inversion Hnd as [|? ? Hn Hnd']; subst.
    rewrite merge_step_dict.
    rewrite (Hfresh k (or_introl eq_refl)). cbn -[merge_value].
    rewrite assign_absent by (apply Hfresh; left; reflexivity).
    rewrite (IH Hnd' (acc ++ [(k, v)])).
    + rewrite <- app_assoc. reflexivity.
    + intros k' Hk'. rewrite lookup_app, (Hfresh k' (or_intror Hk')). simpl.
      destruct (String.eqb_spec k' k) as [Heq|Hne]; [subst k'; contradiction | reflexivity].
Qed.

Lemma merge_idem (v : value) :
  keys_unique v -> forall t t', merge_value v t = Ok t' -> merge_value v t' = Ok t'.
Proof.
  induction v as [| | | |l _|d Hd] using value_ind'; intros Hu t t' Hm; try discriminate.
  revert Hd Hu t t' Hm.
  induction d as [|[k x] rest IHd]; intros Hd Hu t t' Hm.
  - simpl in Hm. injection Hm as <-. reflexivity.
  - simpl in Hu. destruct Hu as [Hnd [Hux Hurest]].
    inversion Hnd as [|? ? Hn Hnd']; subst.
    inversion Hd as [|? ? Hx Hdrest]; subst. simpl in Hx.
    destruct t as [| | | | |td];
      try (rewrite merge_nondict_target in Hm by reflexivity; discriminate).
    rewrite merge_step_dict in Hm.
    (* what the first pass stores at [k] *)
    assert (Hstored : exists stored,
              merge_value (VDict rest) (VDict (dict_assign k stored td)) = Ok t' /\
              (forall sd xd, stored = VDict sd -> x = VDict xd -> merge_value x stored = Ok stored) /\
              ((forall sd xd, stored = VDict sd -> x = VDict xd -> False) -> stored = x)).
    { revert Hm; destruct (lookup k td) as [[| | | | |tk]|]; intros Hm;
        try (exists x; split; [exact Hm|]; split; [|intros _; reflexivity];
             intros sd xd Hs _; subst x;
             apply (Hx Hux (VDict []) (VDict sd));
             exact (merge_into_fresh sd (proj1 Hux) [] (fun _ _ => eq_refl))).
      destruct x as [| | | | |xd];
        try (eexists; split; [exact Hm|]; split; [intros sd xd' _ Hxd; discriminate | intros _; reflexivity]).
      destruct (merge_value (VDict xd) (VDict tk)) as [tk'|e] eqn:Htk; [|discriminate].
      simpl in Hm. exists tk'. split; [exact Hm|]. split.
      - intros sd xd' _ _. exact (Hx Hux _ _ Htk).
      - intros Hno. exfalso.
        destruct (merge_total (VDict xd) xd tk eq_refl) as [tk'' Htk''].
        rewrite Htk in Htk''. injection Htk'' as ->. exact (Hno _ _ eq_refl eq_refl). }
    destruct Hstored as [stored [Hrest [Hdd Hother]]].
    assert (Hu_rest : keys_unique (VDict rest)) by (split; assumption).
    destruct (merge_lookup rest Hnd' (dict_assign k stored td)) as [td' [Hm' [Habs _]]].
    rewrite Hrest in Hm'. injection Hm' as ->.
    assert (Hk : lookup k td' = Some stored).
    { rewrite (Habs k (lookup_notin k rest Hn)). apply lookup_assign_same. }
    rewrite merge_step_dict, Hk.
    assert (Hstep : merge_value (VDict rest) (VDict (dict_assign k stored td')) = Ok (VDict td')).
    { rewrite (assign_lookup_same k stored td' Hk). exact (IHd Hdrest Hu_rest _ _ Hrest). }
    destruct stored as [| | | | |sd].
    all: try (assert (Hsx : _ = x) by (apply Hother; intros ? ? Hs; discriminate Hs);
              rewrite <- Hsx; exact Hstep).
    destruct x as [| | | | |xd].
    all: try (exfalso; assert (Hsx : VDict sd = _)
                by (apply Hother; intros ? ? _ Hxd; discriminate Hxd);
              discriminate Hsx).
    rewrite (Hdd sd xd eq_refl eq_refl). simpl. exact Hstep.
Qed.

(** X19: merging the same dict a second time changes nothing: when
    [merge(config_dict)] returns, for a [config_dict] whose mappings have
    distinct keys at every depth (as Python dicts have), a second
    [merge(config_dict)] returns too and leaves the store as the first
    left it. *)
Theorem merge_twice (src : dict) (st st' : state) :
  keys_unique (VDict src) -> merge src st = (Ok tt, st') -> merge src st' = (Ok tt, st').
Proof.
  intros Hu H. unfold merge, st_bind, st_get, st_lift, set_tree in *.
  destruct (merge_value (VDict src) (_config st)) as [t|e] eqn:Hm; [|discriminate].
  injection H as <-. cbn [_config].
  rewrite (merge_idem (VDict src) Hu _ _ Hm). reflexivity.
Qed.

Lemma merge_twice_witness :
  exists st',
    merge [("db", VDict [("host", VStr "h"); ("port", VInt 5)]); ("a", VInt 2)] st_dir = (Ok tt, st') /\
    merge [("db", VDict [("host", VStr "h"); ("port", VInt 5)]); ("a", VInt 2)] st' = (Ok tt, st').
Proof.
  exists (snd (merge [("db", VDict [("host", VStr "h"); ("port", VInt 5)]); ("a", VInt 2)] st_dir)).
  assert (H1 : merge [("db", VDict [("host", VStr "h"); ("port", VInt 5)]); ("a", VInt 2)] st_dir =
               (Ok tt, snd (merge [("db", VDict [("host", VStr "h"); ("port", VInt 5)]); ("a", VInt 2)] st_dir)))
    by reflexivity.
  split; [exact H1|].
  apply (merge_twice _ st_dir _); [|exact H1].
  simpl. repeat (split || constructor); simpl; intuition discriminate.
Defined.
